(* ===== verification/_CoqProject ===== *)
-Q . S2P
Prelude.v
Dom.v
Geometry.v
RootMargin.v
IntersectionObserver.v
Animations.v
Page.v
Visibility.v
Watcher.v
