(* ===== verification/Prelude.v ===== *)
(** * Scroll-triggered entrance animations: a verification development

    The repository's program is [src/assets/js/animations.js] (34 lines).
    An IIFE creates one [IntersectionObserver] with the options
    [{threshold: 0.15, rootMargin: '0px 0px -40px 0px'}]. Its callback
    walks the batch of entries. For each entry that [isIntersecting], it
    adds the class [is-visible] to the entry's target and unobserves it.
    [init] observes every element matching [[data-animate]], then every
    element matching [.svg-chart-wrap]. The script runs [init] at once,
    unless [document.readyState] is ["loading"]; then it registers [init]
    as a [DOMContentLoaded] listener.

    ** Files, in dependency order, and what they model

    - [Prelude] (this file): the shared pieces. [JS] is a
      state-and-exception monad: as in JavaScript, the mutations made
      before a [throw] are kept. It comes with its notation in [js_scope]
      and [forEach]. The ordered-set helpers are [add_unique],
      [list_remove] and [ordered_set_of]. The hint database is [webdb].
    - The browser facilities the script calls. Their semantics are
      modelled from the web standards, as far as the script depends on
      them. They are not code of the repository, so they are not entries
      of the manifest's map.
      - [Dom] (WHATWG DOM and Infra): elements with attribute lists; the
        [class] token set (split on ASCII whitespace, ordered set parser
        and serializer); [classList.add] with its token validation
        ([SyntaxError], [InvalidCharacterError]) and update steps; the two
        simple selectors the script uses, with parser and printer;
        [querySelectorAll] in tree order; [readyState]; the duplicate
        check of [addEventListener].
      - [Geometry]: rectangles; margin offsets in pixels or per cent;
        the root bounds (the viewport with each edge moved by its offset);
        [isIntersecting] (touching, even with zero area);
        [intersectionRatio]; the threshold index.
      - [RootMargin] (W3C "parse a root margin" and the [rootMargin]
        getter): the margin string is split on whitespace; each token is
        [<integer>px] or [<integer>%]; the CSS shorthand expands one to
        three values to four; failure means [SyntaxError].
      - [IntersectionObserver] (W3C): the constructor (a [SyntaxError]
        for the margin, a [RangeError] for a threshold outside [[0, 1]],
        thresholds sorted by [sort_thresholds]); [observe] and
        [unobserve]; the "update intersection observations" steps, which
        queue an entry when the threshold index or [isIntersecting]
        changes; the notification's copy-and-clear of the queue. The
        class [ObserverAPI] with [ObserverLaws] is the interface the
        script is proved against. [observer_laws] discharges it for the
        concrete observer.
    - [Animations] is the script, line by line. [World] is the state its
      functions share: the document and the [observer] variable (line 5).
      The Section [Script] holds [on_entry] (lines 6-11), [callback]
      (lines 5-11), [init] (lines 17-28) and [start] (lines 30-34). It is
      written against any observer with [ObserverAPI].
      [animations_options] is the options object (lines 12-15).
      [run_script] is the IIFE (lines 2-35) at the concrete observer.
    - [Page]: the page lifecycle as a step relation. [step_in ok]
      interleaves these steps freely:
      - the parser appending elements while loading;
      - the script running once;
      - the end of parsing, then [DOMContentLoaded];
      - the load;
      - a rendering update with a layout allowed by [ok];
      - the notification task.

      [step] allows every layout. Its invariant [page_inv] is proved by
      induction over [reachable] pages.
    - [Visibility]: the second invariant [live_inv]. The observer keeps the
      script's options. A registration last found intersecting has an
      intersecting entry waiting in the queue. Targets are document
      elements. Also the restricted environment [step_in (avoids t)], in
      which [t]'s box never touches the root bounds.
    - [Watcher]: the spec's Visibility Watcher as an abstract machine
      ([AState]: elements, registry, marked set; [a_step]: parse,
      register, deliver, stutter). [abs] reads a page as a watcher state.

    ** Ghost state

    [Document] has a field [doc_queries] that the DOM does not have. Every
    [querySelectorAll] call appends its selector and the current
    [readyState] to it. It exists only to state when and how often the
    script queries the document.

    ** Theorems (claims C1-C16 of the manifest)

    - The script's functions (in [Animations]):
      - [callback_correct] (C1): the callback marks and unobserves exactly
        the targets of intersecting entries.
      - [init_registers_candidates] (C2): [init] registers each candidate
        once.
      - [start_correct] (C3): the script defers to [DOMContentLoaded]
        while loading.
      - [callback_idempotent] (C12): a second delivery of a batch changes
        nothing (spec property 4).
      - [callback_permutation] (C13): the order of the entries does not
        matter.
      - [isIntersecting_bottom_margin] (C14): the 40 pixel bound of the
        margin string is exact.
      - [run_script_succeeds] (C16): the script never throws.
    - The page, over all reachable pages ([Page], [Visibility]):
      - [threshold_reached_marked] (C4): an observed element at 15 per
        cent or more is marked at the next notification (spec property
        2).
      - [never_touching_never_marked] (C5): an element that never touches
        the root bounds is never changed and stays observed (spec
        property 3, positive half).
      - [touching_marked_any_ratio] (C6): any contact marks, whatever the
        ratio, so the 0.15 threshold does not gate the class. This
        contradicts the negative half of spec property 3 (the manifest's
        first finding).
      - [candidates_observed_or_visible] (C8): every candidate is observed
        or already visible.
      - [marked_element_frozen] (C9): a marked element is unobserved and
        never changed again, so the class is added exactly once (spec
        property 2).
      - [queries_after_parsing] (C10): the queries never run while loading
        (spec property 6).
      - [first_frame_after_script] (C11): when the script runs on a parsed
        document, the first frame marks the candidates in view and leaves
        the others observed (the manifest's second finding).
      - [render_notify_marks] (C15): a first contact leads to marking.
    - Refinement ([Watcher]). [page_refines_watcher] (C7): a lock-step
      simulation. Every step of a reachable page is exactly one step of
      the abstract watcher. A notification is one delivery: it marks only
      registered elements and deregisters them in that same step.
    - Library lemmas, not claims:
      - the DOMTokenList round trip, [classList_add_twice] and the
        selector round trips;
      - [parse_serialize_root_margin], the ratio bounds,
        [sort_thresholds_sorted] and [sort_thresholds_perm];
      - [new_observer_validates], [observe_unobserve_spec] and
        [first_update_queues] (the first update after [observe] always
        delivers an entry);
      - [unobserved_element_frozen].

    ** Numbers, fuel, bounds

    CSS pixels are integers ([Z]); browsers use fixed-point LayoutUnits
    and doubles. A per cent offset is resolved against the viewport's
    width and rounded down. Ratios and the threshold 0.15 are exact
    rationals ([Q]), so the model has no rounding. Every function recurses
    structurally, so no fuel is needed. Element identity is a [nat] node
    id.

    ** Not modelled

    - Other scripts mutating the DOM; element removal or re-insertion.
    - Clipping by scrolling ancestors: the root is the implicit root.
    - Quirks-mode case-insensitive class matching.
    - Selector syntax beyond [[name]] and [.name] with ASCII identifiers.
    - In [rootMargin] strings: CSS numbers with a fraction or exponent,
      units other than [px], and comments. The model's parser rejects
      them.
    - The time stamps and rectangles carried by entries: the script reads
      only [target] and [isIntersecting].
    - The CSS that animates [is-visible], which is outside the repository.

    ** Plan for later work

    1. A bound on the number of class mutations per element over a whole
       run (at most one), read off the refinement.
    2. The [DOMContentLoaded] path with listeners registered by other
       scripts, and a throwing listener before [init].
    3. Percentages in [rootMargin] resolved as browsers do (height for the
       vertical offsets), compared with the specification's width rule.
*)

From stdpp Require Import base list gmap strings.
From Stdlib Require Import ZArith.

Declare Scope js_scope.
Delimit Scope js_scope with js.

(** ** Exceptions and the JS monad *)

(** The exceptions the modelled operations can raise: [DOMException]s
    named [SyntaxError] and [InvalidCharacterError], and ECMAScript's
    [RangeError]. *)
Inductive exn := SyntaxError | InvalidCharacterError | RangeError.

#[export] Instance exn_eq_dec : EqDecision exn.
Proof. solve_decision. Defined.

(** The completion of a statement: it returns normally or throws. *)
Inductive completion (A : Type) := Normal (a : A) | Throw (e : exn).
Arguments Normal {A} a.
Arguments Throw {A} e.

(** A computation over a state [S]: it keeps the mutations made before a
    [throw], as JavaScript does. *)
Definition JS (S A : Type) : Type := S → completion A * S.

Definition js_ret {S A} (a : A) : JS S A := λ s, (Normal a, s).
Definition js_throw {S A} (e : exn) : JS S A := λ s, (Throw e, s).
Definition js_bind {S A B} (m : JS S A) (k : A → JS S B) : JS S B :=
  λ s, match m s with
       | (Normal a, s') => k a s'
       | (Throw e, s') => (Throw e, s')
       end.
Definition js_get {S} : JS S S := λ s, (Normal s, s).
Definition js_gets {S A} (f : S → A) : JS S A := λ s, (Normal (f s), s).
Definition js_modify {S} (f : S → S) : JS S unit := λ s, (Normal tt, f s).

Notation "x <- m ;; k" := (js_bind m (λ x, k))
  (at level 100, m at next level, right associativity) : js_scope.
Notation "m ;;; k" := (js_bind m (λ _ : unit, k))
  (at level 100, right associativity) : js_scope.

Local Open Scope js_scope.

(** [Array.prototype.forEach] and [NodeList.prototype.forEach] over a list
    that the callback does not change: the callback runs on each element in
    order, and an exception stops the iteration. *)
Fixpoint forEach {S A} (f : A → JS S unit) (l : list A) : JS S unit :=
  match l with
  | [] => js_ret tt
  | x :: l' => f x ;;; forEach f l'
  end.

(** A computation that never throws and acts on the state as [g]. *)
Definition js_pure_step {S} (m : JS S unit) (g : S → S) : Prop :=
  ∀ s, m s = (Normal tt, g s).

(** ** Ordered sets as lists (the DOM's "ordered set") *)

Section OrderedSet.
Context {A : Type} `{EqDecision A}.

(** "Append [x] to the set" : a no-op when [x] is already present. *)
Definition add_unique (x : A) (l : list A) : list A :=
  if decide (x ∈ l) then l else l ++ [x].

(** "Remove [x] from the set". *)
Definition list_remove (x : A) (l : list A) : list A :=
  filter (λ y, y ≠ x) l.

(** The ordered set of a list: first occurrences, in order. *)
Definition ordered_set_of (l : list A) : list A :=
  foldl (λ acc x, add_unique x acc) [] l.
End OrderedSet.

Create HintDb webdb discriminated.
Create Rewrite HintDb webdb.

(** ** Lemmas on the monad *)

Lemma js_bind_normal {S A B} (m : JS S A) (k : A → JS S B) s a s' :
  m s = (Normal a, s') → js_bind m k s = k a s'.
Proof. intros Hm. unfold js_bind. by rewrite Hm. Qed.

Lemma js_bind_throw {S A B} (m : JS S A) (k : A → JS S B) s e s' :
  m s = (Throw e, s') → js_bind m k s = (Throw e, s').
Proof. intros Hm. unfold js_bind. by rewrite Hm. Qed.

Lemma forEach_app {S A} (f : A → JS S unit) l1 l2 s :
  forEach f (l1 ++ l2) s = js_bind (forEach f l1) (λ _, forEach f l2) s.
Proof.
  revert s. induction l1 as [|x l1 IH]; intros s; [reflexivity|].
  simpl. unfold js_bind at 1 2 3. destruct (f x s) as [[[]|e] s']; [|reflexivity].
  apply IH.
Qed.

(** A [forEach] whose callback never throws on the list's elements is a
    left fold of its effect. *)
Lemma forEach_pure {S A} (f : A → JS S unit) (g : A → S → S) l s :
  (∀ x, x ∈ l → js_pure_step (f x) (g x)) →
  forEach f l s = (Normal tt, foldl (λ s x, g x s) s l).
Proof.
  intros Hf. revert s. induction l as [|x l IH]; intros s; [done|].
  simpl. rewrite (js_bind_normal _ _ s tt (g x s)).
  - apply IH. intros y Hy. apply Hf. by right.
  - apply Hf. by left.
Qed.

Lemma forEach_pure_step {S A} (f : A → JS S unit) (g : A → S → S) l :
  (∀ x, x ∈ l → js_pure_step (f x) (g x)) →
  js_pure_step (forEach f l) (λ s, foldl (λ s x, g x s) s l).
Proof. intros Hf s. by apply forEach_pure. Qed.

(** An exception stops [forEach]: the state is the one the throwing
    callback left. *)
Lemma forEach_throw {S A} (f : A → JS S unit) (g : A → S → S) l1 x l2 s e s' :
  (∀ y, y ∈ l1 → js_pure_step (f y) (g y)) →
  f x (foldl (λ s y, g y s) s l1) = (Throw e, s') →
  forEach f (l1 ++ x :: l2) s = (Throw e, s').
Proof.
  intros Hf Hx. rewrite forEach_app.
  rewrite (js_bind_normal _ _ s tt (foldl (λ s y, g y s) s l1)) by (by apply forEach_pure).
  simpl. by apply js_bind_throw.
Qed.

Lemma foldl_const_id {A B} (l : list B) (s : A) : foldl (λ s _, s) s l = s.
Proof. revert s. induction l; simpl; auto. Qed.

(** ** Lemmas on strings ([String.append] does not unfold by [simpl]) *)

Lemma string_app_nil_l (t : string) : EmptyString +:+ t = t.
Proof. reflexivity. Qed.

Lemma string_app_cons c (s t : string) : String c s +:+ t = String c (s +:+ t).
Proof. reflexivity. Qed.

Lemma string_app_nil_r (t : string) : t +:+ EmptyString = t.
Proof. induction t as [|c t IH]; [done|]. by rewrite string_app_cons, IH. Qed.

Lemma string_app_assoc (s t u : string) : s +:+ (t +:+ u) = (s +:+ t) +:+ u.
Proof. induction s as [|c s IH]; [done|]. by rewrite !string_app_cons, IH. Qed.

(** ** Lemmas on lists and ordered sets *)

Lemma list_filter_id {A} (P : A → Prop) `{∀ x, Decision (P x)} (l : list A) :
  (∀ x, x ∈ l → P x) → filter P l = l.
Proof.
  induction l as [|y l IH]; intros Hl; [done|].
  rewrite filter_cons_True by set_solver. f_equal. apply IH. set_solver.
Qed.

Section OrderedSetLemmas.
Context {A : Type} `{EqDecision A}.
Implicit Types (x y : A) (l : list A).

Lemma elem_of_add_unique x y l : x ∈ add_unique y l ↔ x = y ∨ x ∈ l.
Proof.
  unfold add_unique. case_decide; [set_solver|].
  rewrite elem_of_app, list_elem_of_singleton. tauto.
Qed.

Lemma add_unique_present x l : x ∈ l → add_unique x l = l.
Proof. intros Hx. unfold add_unique. by rewrite decide_True. Qed.

Lemma add_unique_absent x l : x ∉ l → add_unique x l = l ++ [x].
Proof. intros Hx. unfold add_unique. by rewrite decide_False. Qed.

Lemma NoDup_add_unique x l : NoDup l → NoDup (add_unique x l).
Proof.
  intros Hl. unfold add_unique. case_decide; [done|].
  apply NoDup_app. split; [done|]. split; [set_solver|]. apply NoDup_singleton.
Qed.

Lemma add_unique_idem x l : add_unique x (add_unique x l) = add_unique x l.
Proof. apply add_unique_present. apply elem_of_add_unique. by left. Qed.

Lemma elem_of_list_remove x y l : x ∈ list_remove y l ↔ x ≠ y ∧ x ∈ l.
Proof. unfold list_remove. rewrite list_elem_of_filter. tauto. Qed.

Lemma NoDup_list_remove y l : NoDup l → NoDup (list_remove y l).
Proof. intros. by apply NoDup_filter. Qed.

Lemma list_remove_absent y l : y ∉ l → list_remove y l = l.
Proof.
  intros Hy. unfold list_remove. apply list_filter_id.
  intros x Hx ->. contradiction.
Qed.

Lemma list_remove_idem y l : list_remove y (list_remove y l) = list_remove y l.
Proof. apply list_remove_absent. rewrite elem_of_list_remove. tauto. Qed.

Lemma length_list_remove_in y l :
  NoDup l → y ∈ l → length (list_remove y l) = pred (length l).
Proof.
  intros Hnd Hy. apply list_elem_of_split in Hy as (l1 & l2 & ->).
  apply NoDup_app in Hnd as (Hnd1 & Hdisj & Hnd2).
  apply NoDup_cons in Hnd2 as [Hy2 Hnd2].
  unfold list_remove. rewrite filter_app, filter_cons_False by (intros Hne; by apply Hne).
  rewrite !list_filter_id.
  - rewrite !length_app. simpl. lia.
  - intros x Hx ->. contradiction.
  - intros x Hx ->. apply (Hdisj y); [done|]. set_solver.
Qed.

(** Folding [add_unique] over a list from an accumulator. *)
Lemma elem_of_foldl_add_unique x acc l :
  x ∈ foldl (λ acc x, add_unique x acc) acc l ↔ x ∈ acc ∨ x ∈ l.
Proof.
  revert acc. induction l as [|y l IH]; intros acc; simpl.
  - set_solver.
  - rewrite IH, elem_of_add_unique, elem_of_cons. tauto.
Qed.

Lemma NoDup_foldl_add_unique acc l :
  NoDup acc → NoDup (foldl (λ acc x, add_unique x acc) acc l).
Proof.
  revert acc. induction l as [|y l IH]; intros acc Hacc; simpl; [done|].
  by apply IH, NoDup_add_unique.
Qed.

Lemma foldl_add_unique_NoDup acc l :
  NoDup (acc ++ l) → foldl (λ acc x, add_unique x acc) acc l = acc ++ l.
Proof.
  revert acc. induction l as [|y l IH]; intros acc Hnd; simpl.
  - by rewrite app_nil_r.
  - assert (y ∉ acc) as Hy.
    { intros Hy. apply NoDup_app in Hnd as (_ & Hd & _).
      apply (Hd y Hy). apply elem_of_cons. by left. }
    rewrite add_unique_absent by done.
    rewrite IH; rewrite <-app_assoc; done.
Qed.

Lemma Forall_foldl_add_unique (P : A → Prop) acc l :
  Forall P acc → Forall P l → Forall P (foldl (λ acc x, add_unique x acc) acc l).
Proof.
  rewrite !Forall_forall. intros Hacc Hl x. rewrite elem_of_foldl_add_unique.
  intros [Hx|Hx]; auto.
Qed.

Lemma foldl_add_unique_present acc l :
  (∀ x, x ∈ l → x ∈ acc) → foldl (λ acc x, add_unique x acc) acc l = acc.
Proof.
  revert acc. induction l as [|y l IH]; intros acc Hl; [done|]. simpl.
  rewrite add_unique_present by set_solver. apply IH. set_solver.
Qed.

Lemma elem_of_ordered_set_of x l : x ∈ ordered_set_of l ↔ x ∈ l.
Proof. unfold ordered_set_of. rewrite elem_of_foldl_add_unique. set_solver. Qed.

Lemma NoDup_ordered_set_of l : NoDup (ordered_set_of l).
Proof. apply NoDup_foldl_add_unique, NoDup_nil_2. Qed.

Lemma ordered_set_of_NoDup l : NoDup l → ordered_set_of l = l.
Proof. intros. by apply foldl_add_unique_NoDup. Qed.
End OrderedSetLemmas.

(** Altering a map at each key of a list with an idempotent function: the
    keys of the list are altered once, the others are untouched. *)
Lemma lookup_foldl_alter_idem {K V} `{Countable K} (f : V → V) (ks : list K)
    (m : gmap K V) k :
  (∀ v, f (f v) = f v) →
  foldl (λ m k, alter f k m) m ks !! k
  = if decide (k ∈ ks) then f <$> m !! k else m !! k.
Proof.
  intros Hf. revert m. induction ks as [|k0 ks IH]; intros m; cbn [foldl].
  - rewrite decide_False; [done|]. apply not_elem_of_nil.
  - rewrite IH. destruct (decide (k0 = k)) as [->|Hne].
    + rewrite lookup_alter_eq. rewrite (decide_True (P := k ∈ k :: ks)) by set_solver.
      case_decide; [|done]. destruct (m !! k); simpl; [by rewrite Hf|done].
    + rewrite lookup_alter_ne by done.
      destruct (decide (k ∈ ks)) as [Hk|Hk].
      * by rewrite (decide_True (P := k ∈ k0 :: ks)) by set_solver.
      * by rewrite (decide_False (P := k ∈ k0 :: ks)) by set_solver.
Qed.

#[export] Hint Resolve NoDup_add_unique NoDup_list_remove NoDup_foldl_add_unique
  NoDup_ordered_set_of : webdb.
#[export] Hint Rewrite string_app_nil_l string_app_cons string_app_nil_r : webdb.
#[export] Hint Rewrite @elem_of_add_unique @elem_of_list_remove
  @elem_of_foldl_add_unique @elem_of_ordered_set_of : webdb.

(** Unfold the monad's combinators and reduce. *)
Ltac js_simpl :=
  unfold js_bind, js_ret, js_throw, js_get, js_gets, js_modify in *; simpl in *.
