(* ===== verification/Dom.v ===== *)
(** * The DOM facilities the script calls

    Modelled from the WHATWG DOM and Infra standards: an element's
    attribute list; the [class] attribute's token set (split on ASCII
    whitespace, ordered set parser and serializer); [classList.add] with
    its token validation and update steps; the two simple selectors the
    script passes to [querySelectorAll] (an attribute-presence selector and
    a class selector), their parser and printer; [querySelectorAll] in tree
    order; [readyState]; [addEventListener]'s duplicate check. Element
    identity is a node id ([nat]); the document maps ids to elements and
    keeps the tree order as a list. *)

From stdpp Require Import base list gmap strings.
From Stdlib Require Import Ascii.
From S2P Require Import Prelude.

Local Open Scope js_scope.

(** ** Strings: ASCII whitespace and tokens *)

(** Infra's ASCII whitespace: TAB, LF, FF, CR and SPACE. *)
Definition is_ascii_ws (c : ascii) : bool :=
  match Ascii.nat_of_ascii c with
  | 9 | 10 | 12 | 13 | 32 => true
  | _ => false
  end.

Fixpoint has_ascii_ws (s : string) : bool :=
  match s with
  | EmptyString => false
  | String c s' => is_ascii_ws c || has_ascii_ws s'
  end.

(** Cutting a string at every ASCII whitespace character; the pieces may
    be empty. *)
Fixpoint split_raw (s : string) : list string :=
  match s with
  | EmptyString => [EmptyString]
  | String c s' =>
      if is_ascii_ws c then EmptyString :: split_raw s'
      else match split_raw s' with
           | t :: ts => String c t :: ts
           | [] => [String c EmptyString]
           end
  end.

(** Infra's "split a string on ASCII whitespace": the non-empty runs of
    non-whitespace characters, in order. *)
Definition split_on_ascii_whitespace (s : string) : list string :=
  filter (λ t, t ≠ EmptyString) (split_raw s).

(** DOM's ordered set parser: split, then keep first occurrences. *)
Definition parse_ordered_set (s : string) : list string :=
  ordered_set_of (split_on_ascii_whitespace s).

(** DOM's ordered set serializer: the tokens joined by U+0020 SPACE. *)
Definition serialize_ordered_set (ts : list string) : string :=
  String.concat " " ts.

(** ** Elements *)

Record Element := mkElement {
  localName : string;
  attributes : list (string * string)
}.

(** [getAttribute]: the value of the first attribute with that name. *)
Fixpoint attr_lookup (name : string) (attrs : list (string * string)) : option string :=
  match attrs with
  | [] => None
  | (n, v) :: attrs' => if decide (n = name) then Some v else attr_lookup name attrs'
  end.

Definition get_attribute (e : Element) (name : string) : option string :=
  attr_lookup name (attributes e).

(** "Set an attribute value": change the existing attribute in place, or
    append a new one at the end of the attribute list. *)
Fixpoint attr_set (name value : string) (attrs : list (string * string))
    : list (string * string) :=
  match attrs with
  | [] => [(name, value)]
  | (n, v) :: attrs' =>
      if decide (n = name) then (n, value) :: attrs'
      else (n, v) :: attr_set name value attrs'
  end.

Definition set_attribute (name value : string) (e : Element) : Element :=
  mkElement (localName e) (attr_set name value (attributes e)).

(** The token set of [classList]: the ordered set parsed from the [class]
    attribute, empty when the attribute is absent. *)
Definition class_tokens (e : Element) : list string :=
  match get_attribute e "class" with
  | Some v => parse_ordered_set v
  | None => []
  end.

(** A token [classList] accepts. *)
Definition valid_token (t : string) : Prop := t ≠ EmptyString ∧ has_ascii_ws t = false.

(** DOMTokenList's token validation: an empty token is a [SyntaxError], a
    token with ASCII whitespace an [InvalidCharacterError]. *)
Definition validate_token (t : string) : option exn :=
  if decide (t = EmptyString) then Some SyntaxError
  else if has_ascii_ws t then Some InvalidCharacterError
  else None.

(** The effect of [classList.add(tokens...)] on an element once the tokens
    are valid: append each token to the token set, then run the update
    steps (no change when there is no [class] attribute and the set is
    empty; otherwise set [class] to the serialized set). *)
Definition class_list_add_tokens (ts : list string) (e : Element) : Element :=
  let set := foldl (λ acc t, add_unique t acc) (class_tokens e) ts in
  match get_attribute e "class", set with
  | None, [] => e
  | _, _ => set_attribute "class" (serialize_ordered_set set) e
  end.

(** ** Documents *)

Inductive ReadyState := Loading | Interactive | Complete.

#[export] Instance ReadyState_eq_dec : EqDecision ReadyState.
Proof. solve_decision. Defined.

(** An event listener: the event type and the identity of its callback. *)
Definition Listener : Type := string * string.

(** [doc_queries] is ghost state, not a DOM field: every
    [querySelectorAll] call appends its selector string and the
    [readyState] at the time of the call, so that when and how often the
    script queries the document can be stated. *)
Record Document := mkDocument {
  doc_elements : gmap nat Element;
  doc_order : list nat;            (** the elements' ids in tree order *)
  readyState : ReadyState;
  doc_listeners : list Listener;
  doc_queries : list (string * ReadyState)
}.

Definition set_elements (m : gmap nat Element) (d : Document) : Document :=
  mkDocument m (doc_order d) (readyState d) (doc_listeners d) (doc_queries d).
Definition set_ready_state (r : ReadyState) (d : Document) : Document :=
  mkDocument (doc_elements d) (doc_order d) r (doc_listeners d) (doc_queries d).
Definition set_listeners (ls : list Listener) (d : Document) : Document :=
  mkDocument (doc_elements d) (doc_order d) (readyState d) ls (doc_queries d).
Definition log_query (selectors : string) (d : Document) : Document :=
  mkDocument (doc_elements d) (doc_order d) (readyState d) (doc_listeners d)
             (doc_queries d ++ [(selectors, readyState d)]).

(** The validation loop of [classList.add]: the first invalid token
    throws its error. *)
Definition validate_tokens (ts : list string) : JS Document unit :=
  forEach (λ t, match validate_token t with
                | Some e => js_throw e
                | None => js_ret tt
                end) ts.

(** [el.classList.add(tokens...)] for the element with id [id]: validate
    every token first, then update the element. *)
Definition classList_add (id : nat) (ts : list string) : JS Document unit :=
  validate_tokens ts ;;;
  js_modify (λ d, set_elements (alter (class_list_add_tokens ts) id (doc_elements d)) d).

(** The effect of [classList.add] with valid tokens on the document. *)
Definition classList_add_effect (id : nat) (ts : list string) (d : Document) : Document :=
  set_elements (alter (class_list_add_tokens ts) id (doc_elements d)) d.

(** [target.addEventListener(type, callback)]: appended unless a listener
    with the same type and callback is already in the list. *)
Definition addEventListener (type cb : string) : JS Document unit :=
  js_modify (λ d, set_listeners (add_unique (type, cb) (doc_listeners d)) d).

(** ** Selectors *)

(** The two simple selectors of the script: [[name]] (the element has an
    attribute [name]) and [.cls] (the element's class token set has
    [cls]). *)
Inductive Selector := AttrSelector (name : string) | ClassSelector (cls : string).

#[export] Instance Selector_eq_dec : EqDecision Selector.
Proof. solve_decision. Defined.

Definition is_letter (c : ascii) : bool :=
  let n := Ascii.nat_of_ascii c in
  (Nat.leb 65 n && Nat.leb n 90) || (Nat.leb 97 n && Nat.leb n 122).
Definition is_digit (c : ascii) : bool :=
  let n := Ascii.nat_of_ascii c in Nat.leb 48 n && Nat.leb n 57.
Definition is_name_char (c : ascii) : bool :=
  is_letter c || is_digit c || bool_decide (c = "-"%char) || bool_decide (c = "_"%char).

Fixpoint all_name_chars (s : string) : bool :=
  match s with
  | EmptyString => true
  | String c s' => is_name_char c && all_name_chars s'
  end.

(** The CSS identifiers the model accepts: an ASCII letter or [_]
    followed by ASCII letters, digits, [-] and [_]. *)
Definition is_ident (s : string) : bool :=
  match s with
  | EmptyString => false
  | String c s' => (is_letter c || bool_decide (c = "_"%char)) && all_name_chars s'
  end.

(** The string without its last character when that is [c]. *)
Fixpoint strip_last (c : ascii) (s : string) : option string :=
  match s with
  | EmptyString => None
  | String c' EmptyString => if decide (c' = c) then Some EmptyString else None
  | String c' s' => String c' <$> strip_last c s'
  end.

(** Parsing a selector string; [None] is the [SyntaxError] that
    [querySelectorAll] throws. *)
Definition parse_selector (s : string) : option Selector :=
  match s with
  | String "[" rest =>
      match strip_last "]" rest with
      | Some name => if is_ident name then Some (AttrSelector name) else None
      | None => None
      end
  | String "." name => if is_ident name then Some (ClassSelector name) else None
  | _ => None
  end.

Definition print_selector (sel : Selector) : string :=
  match sel with
  | AttrSelector n => String "[" (n +:+ "]")
  | ClassSelector c => String "." c
  end.

Definition selector_name (sel : Selector) : string :=
  match sel with AttrSelector n => n | ClassSelector c => c end.

Definition matches (sel : Selector) (e : Element) : bool :=
  match sel with
  | AttrSelector n => bool_decide (is_Some (get_attribute e n))
  | ClassSelector c => bool_decide (c ∈ class_tokens e)
  end.

Definition matches_id (sel : Selector) (d : Document) (id : nat) : bool :=
  match doc_elements d !! id with
  | Some e => matches sel e
  | None => false
  end.

(** The ids, in tree order, of the elements of [d] that match [sel]. *)
Definition select_all (sel : Selector) (d : Document) : list nat :=
  filter (λ id, matches_id sel d id = true) (doc_order d).

(** [document.querySelectorAll(selectors)]: a static list in tree order,
    or a [SyntaxError] for a selector string that does not parse (the
    ghost log records the call either way). *)
Definition querySelectorAll (selectors : string) : JS Document (list nat) :=
  λ d, match parse_selector selectors with
       | None => (Throw SyntaxError, log_query selectors d)
       | Some sel => (Normal (select_all sel d), log_query selectors d)
       end.

(** A one-element document used by the witnesses. *)
Definition example_doc : Document :=
  mkDocument {[0 := mkElement "div" [("class", "a")]]} [0] Complete [] [].

(** ** Lemmas: splitting and the ordered set round trip *)


Lemma validate_token_None t : validate_token t = None ↔ valid_token t.
Proof.
  unfold validate_token, valid_token.
  case_decide; [naive_solver|]. destruct (has_ascii_ws t); naive_solver.
Qed.

Lemma split_raw_cons s : ∃ u us, split_raw s = u :: us.
Proof.
  induction s as [|c s [u [us IH]]]; simpl; [by eexists _, _|].
  destruct (is_ascii_ws c); [by eexists _, _|]. rewrite IH. by eexists _, _.
Qed.

Lemma split_raw_app_nows t s :
  has_ascii_ws t = false →
  split_raw (t +:+ s) = match split_raw s with
                        | u :: us => (t +:+ u) :: us
                        | [] => [t]
                        end.
Proof.
  induction t as [|c t IH]; intros Ht.
  - destruct (split_raw_cons s) as (u & us & Hs). by rewrite Hs.
  - rewrite string_app_cons. simpl in *. apply orb_false_iff in Ht as [-> Ht]. rewrite IH by done.
    destruct (split_raw_cons s) as (u & us & Hs). by rewrite Hs.
Qed.

Lemma split_raw_space s : split_raw (String " " s) = EmptyString :: split_raw s.
Proof. reflexivity. Qed.

Lemma split_raw_single t : has_ascii_ws t = false → split_raw t = [t].
Proof.
  induction t as [|c t IH]; intros Ht; [done|]. simpl in *.
  apply orb_false_iff in Ht as [-> Ht]. by rewrite IH.
Qed.

Lemma split_raw_concat ts :
  Forall (λ t, has_ascii_ws t = false) ts → ts ≠ [] →
  split_raw (serialize_ordered_set ts) = ts.
Proof.
  unfold serialize_ordered_set.
  induction ts as [|t [|t' ts] IH]; intros Hts Hne; [done| |].
  - apply Forall_cons in Hts as [Ht _]. by apply split_raw_single.
  - apply Forall_cons in Hts as [Ht Hts].
    change (String.concat " " (t :: t' :: ts))
      with (t +:+ String " " (String.concat " " (t' :: ts))).
    rewrite split_raw_app_nows, split_raw_space, IH by done.
    by rewrite string_app_nil_r.
Qed.

(** Serializing a valid token set and parsing it back gives the set. *)
Lemma parse_serialize_ordered_set ts :
  Forall valid_token ts → NoDup ts →
  parse_ordered_set (serialize_ordered_set ts) = ts.
Proof.
  intros Hts Hnd. unfold parse_ordered_set, split_on_ascii_whitespace.
  destruct ts as [|t ts]; [reflexivity|].
  rewrite split_raw_concat by (done || by eapply Forall_impl; [done|intros ? []]).
  rewrite list_filter_id.
  - by apply ordered_set_of_NoDup.
  - intros x Hx. rewrite Forall_forall in Hts. apply (Hts x). set_solver.
Qed.

(** Every piece of [split_raw] is free of whitespace. *)
Lemma split_raw_nows s : Forall (λ t, has_ascii_ws t = false) (split_raw s).
Proof.
  induction s as [|c s IH]; simpl; [by repeat constructor|].
  destruct (is_ascii_ws c) eqn:Hc; [by constructor|].
  destruct (split_raw s) as [|u us].
  - constructor; [|constructor]. simpl. by rewrite Hc.
  - apply Forall_cons in IH as [Hu Hus]. constructor; [|done]. simpl. by rewrite Hc, Hu.
Qed.

Lemma parse_ordered_set_valid s :
  Forall valid_token (parse_ordered_set s) ∧ NoDup (parse_ordered_set s).
Proof.
  split; [|apply NoDup_ordered_set_of].
  apply Forall_forall. intros t Ht.
  unfold parse_ordered_set, split_on_ascii_whitespace in Ht.
  rewrite elem_of_ordered_set_of, list_elem_of_filter in Ht. destruct Ht as [Hne Ht].
  split; [done|]. pose proof (split_raw_nows s) as Hall.
  rewrite Forall_forall in Hall. by apply Hall.
Qed.

Lemma class_tokens_valid e :
  Forall valid_token (class_tokens e) ∧ NoDup (class_tokens e).
Proof.
  unfold class_tokens. destruct (get_attribute e "class");
    [apply parse_ordered_set_valid | split; constructor].
Qed.

(** ** Lemmas: attributes and [classList.add] *)

Lemma attr_lookup_set_eq n v attrs : attr_lookup n (attr_set n v attrs) = Some v.
Proof.
  induction attrs as [|[m w] attrs IH]; simpl; [by rewrite decide_True|].
  case_decide; simpl; [by rewrite decide_True|]. by rewrite decide_False.
Qed.

Lemma attr_lookup_set_ne n m v attrs :
  n ≠ m → attr_lookup m (attr_set n v attrs) = attr_lookup m attrs.
Proof.
  intros Hnm. induction attrs as [|[k w] attrs IH]; simpl.
  - by rewrite decide_False.
  - case_decide as Hk; simpl.
    + subst k. by rewrite !decide_False.
    + case_decide; [done|]. apply IH.
Qed.

Lemma attr_set_idem n v attrs : attr_set n v (attr_set n v attrs) = attr_set n v attrs.
Proof.
  induction attrs as [|[k w] attrs IH]; simpl; [by rewrite decide_True|].
  case_decide; simpl; [by rewrite decide_True|]. rewrite decide_False by done.
  by rewrite IH.
Qed.

Lemma class_tokens_set_class v e :
  class_tokens (set_attribute "class" v e) = parse_ordered_set v.
Proof. unfold class_tokens, get_attribute. simpl. by rewrite attr_lookup_set_eq. Qed.

Lemma get_attribute_set_ne n m v e :
  n ≠ m → get_attribute (set_attribute n v e) m = get_attribute e m.
Proof. intros. by apply attr_lookup_set_ne. Qed.

(** The token set [classList.add] builds from valid tokens is a valid set. *)
Lemma added_set_valid ts e :
  Forall valid_token ts →
  let set := foldl (λ acc t, add_unique t acc) (class_tokens e) ts in
  Forall valid_token set ∧ NoDup set.
Proof.
  intros Hts. destruct (class_tokens_valid e) as [Hv Hnd]. split.
  - by apply Forall_foldl_add_unique.
  - by apply NoDup_foldl_add_unique.
Qed.

(** [classList.add] appends the tokens to the token set, first
    occurrences kept. *)
Lemma class_tokens_add ts e :
  Forall valid_token ts →
  class_tokens (class_list_add_tokens ts e)
  = foldl (λ acc t, add_unique t acc) (class_tokens e) ts.
Proof.
  intros Hts. destruct (added_set_valid ts e Hts) as [Hv Hnd].
  unfold class_list_add_tokens.
  destruct (get_attribute e "class") eqn:Hc.
  - by rewrite class_tokens_set_class, parse_serialize_ordered_set.
  - destruct (foldl _ (class_tokens e) ts) eqn:Hs.
    + unfold class_tokens. by rewrite Hc.
    + rewrite <-Hs in *. by rewrite class_tokens_set_class, parse_serialize_ordered_set.
Qed.

Lemma get_attribute_add_ne ts e n :
  n ≠ "class" → get_attribute (class_list_add_tokens ts e) n = get_attribute e n.
Proof.
  intros Hn. unfold class_list_add_tokens.
  destruct (get_attribute e "class"), (foldl _ _ _);
    try apply get_attribute_set_ne; done.
Qed.

Lemma get_attribute_add_class ts e v :
  get_attribute e "class" = Some v →
  get_attribute (class_list_add_tokens ts e) "class"
  = Some (serialize_ordered_set (foldl (λ acc t, add_unique t acc) (class_tokens e) ts)).
Proof.
  intros Hc. unfold class_list_add_tokens. rewrite Hc.
  unfold get_attribute. simpl. apply attr_lookup_set_eq.
Qed.

(** Adding valid tokens a second time changes nothing: the element, its
    attribute list included, is the same. *)
Lemma class_list_add_tokens_idem ts e :
  Forall valid_token ts →
  class_list_add_tokens ts (class_list_add_tokens ts e) = class_list_add_tokens ts e.
Proof.
  intros Hts. pose proof (class_tokens_add ts e Hts) as Htok.
  unfold class_list_add_tokens at 1. rewrite Htok.
  rewrite (foldl_add_unique_present (foldl _ _ ts)) by
    (intros x Hx; apply elem_of_foldl_add_unique; by right).
  unfold class_list_add_tokens.
  destruct (get_attribute e "class") eqn:Hc.
  - unfold get_attribute, set_attribute. simpl. rewrite attr_lookup_set_eq.
    by rewrite attr_set_idem.
  - destruct (foldl _ (class_tokens e) ts) eqn:Hs; [by rewrite Hc|].
    unfold get_attribute, set_attribute. simpl. rewrite attr_lookup_set_eq.
    by rewrite attr_set_idem.
Qed.

(** A selector that matched an element still matches it after
    [classList.add]. *)
Lemma matches_add_mono sel ts e :
  Forall valid_token ts → matches sel e = true → matches sel (class_list_add_tokens ts e) = true.
Proof.
  intros Hts. destruct sel as [n|c]; simpl; rewrite !bool_decide_eq_true.
  - destruct (decide (n = "class")) as [->|Hn].
    + intros [v Hv]. erewrite get_attribute_add_class by done. by eexists.
    + by rewrite get_attribute_add_ne.
  - rewrite class_tokens_add by done. intros Hc.
    apply elem_of_foldl_add_unique. by left.
Qed.



(** ** Lemmas: [classList.add] on the document *)

Lemma classList_add_unfold id ts :
  classList_add id ts
  = (validate_tokens ts ;;;
     js_modify (λ d, set_elements (alter (class_list_add_tokens ts) id (doc_elements d)) d)).
Proof. reflexivity. Qed.

Lemma validate_tokens_valid ts : Forall valid_token ts → js_pure_step (validate_tokens ts) id.
Proof.
  intros Hts d. unfold validate_tokens. rewrite (forEach_pure _ (λ _ d, d)).
  - by rewrite foldl_const_id.
  - intros t Ht d'. rewrite Forall_forall in Hts.
    apply Hts, validate_token_None in Ht. by rewrite Ht.
Qed.

(** With valid tokens, [classList.add] returns normally and updates the
    element's [class] attribute. *)
Lemma classList_add_valid id ts :
  Forall valid_token ts →
  js_pure_step (classList_add id ts) (classList_add_effect id ts).
Proof.
  intros Hts d. rewrite classList_add_unfold.
  by rewrite (js_bind_normal _ _ d tt d) by (by apply validate_tokens_valid).
Qed.

(** The first invalid token makes [classList.add] throw its error, and the
    document is left unchanged. *)
Lemma classList_add_invalid id ts1 t ts2 ex d :
  Forall valid_token ts1 → validate_token t = Some ex →
  classList_add id (ts1 ++ t :: ts2) d = (Throw ex, d).
Proof.
  intros Hts Ht. rewrite classList_add_unfold. apply js_bind_throw.
  unfold validate_tokens. rewrite (forEach_throw _ (λ _ d, d) _ _ _ _ ex d).
  - done.
  - intros y Hy d'. rewrite Forall_forall in Hts.
    apply Hts, validate_token_None in Hy. by rewrite Hy.
  - rewrite foldl_const_id, Ht. done.
Qed.

(** ** Lemmas: selectors *)

(** [strip_last] on a string ending in [a]. *)
Lemma strip_last_snoc c a s :
  strip_last c (s +:+ String a EmptyString) = if decide (a = c) then Some s else None.
Proof.
  induction s as [|c' s IH]; [done|].
  rewrite string_app_cons.
  assert (∃ a' r, s +:+ String a EmptyString = String a' r) as (a' & r & Ha)
    by (destruct s; eexists _, _; reflexivity).
  rewrite Ha in IH |- *.
  change (strip_last c (String c' (String a' r))) with (String c' <$> strip_last c (String a' r)).
  rewrite IH. by case_decide.
Qed.

Lemma strip_last_app c s : strip_last c (s +:+ String c EmptyString) = Some s.
Proof. by rewrite strip_last_snoc, decide_True. Qed.

Lemma has_ascii_ws_app s t : has_ascii_ws (s +:+ t) = has_ascii_ws s || has_ascii_ws t.
Proof. induction s as [|c s IH]; [done|]. rewrite string_app_cons. simpl. by rewrite IH, orb_assoc. Qed.

(** Splitting the space-joined form of tokens without whitespace gives the
    tokens back. *)
Lemma split_serialize ts :
  Forall (λ t, t ≠ EmptyString ∧ has_ascii_ws t = false) ts →
  split_on_ascii_whitespace (String.concat " " ts) = ts.
Proof.
  intros Hts. unfold split_on_ascii_whitespace. destruct ts as [|t ts]; [done|].
  change (String.concat " " (t :: ts)) with (serialize_ordered_set (t :: ts)).
  rewrite (split_raw_concat (t :: ts)) by (done || by eapply Forall_impl; [done|intros ? []]).
  apply list_filter_id. intros x Hx. rewrite Forall_forall in Hts. by apply Hts.
Qed.

Lemma strip_last_Some c s r : strip_last c s = Some r → s = r +:+ String c EmptyString.
Proof.
  revert r. induction s as [|c' s IH]; intros r Hs; [done|].
  destruct s as [|c'' s'].
  - simpl in Hs. case_decide; simplify_eq. done.
  - change (strip_last c (String c' (String c'' s'))) with
      (String c' <$> strip_last c (String c'' s')) in Hs.
    destruct (strip_last c (String c'' s')) as [r'|] eqn:Hr; simplify_eq/=.
    rewrite string_app_cons. f_equal. by apply IH.
Qed.

(** Printing a selector with a valid name and parsing it back gives the
    selector. *)
Lemma parse_print_selector sel :
  is_ident (selector_name sel) = true → parse_selector (print_selector sel) = Some sel.
Proof.
  destruct sel as [n|c]; simpl; intros Hid.
  - by rewrite strip_last_app, Hid.
  - by rewrite Hid.
Qed.

(** A selector string that parses is the printed form of its result. *)
Lemma print_parse_selector s sel :
  parse_selector s = Some sel → print_selector sel = s ∧ is_ident (selector_name sel) = true.
Proof.
  unfold parse_selector.
  destruct s as [|[[] [] [] [] [] [] [] []] rest]; try discriminate;
    try (destruct (is_ident rest) eqn:Hid; intros; simplify_eq/=; done).
  destruct (strip_last "]" rest) as [name|] eqn:Hs; [|discriminate].
  destruct (is_ident name) eqn:Hid; intros; simplify_eq/=.
  apply strip_last_Some in Hs. by subst rest.
Qed.

Lemma elem_of_select_all sel d id :
  id ∈ select_all sel d ↔ id ∈ doc_order d ∧ matches_id sel d id = true.
Proof. unfold select_all. rewrite list_elem_of_filter. tauto. Qed.

Lemma NoDup_select_all sel d : NoDup (doc_order d) → NoDup (select_all sel d).
Proof. intros. by apply NoDup_filter. Qed.

Lemma querySelectorAll_print sel d :
  is_ident (selector_name sel) = true →
  querySelectorAll (print_selector sel) d
  = (Normal (select_all sel d), log_query (print_selector sel) d).
Proof. intros Hid. unfold querySelectorAll. by rewrite parse_print_selector. Qed.

Lemma querySelectorAll_syntax_error s d :
  parse_selector s = None → querySelectorAll s d = (Throw SyntaxError, log_query s d).
Proof. intros Hs. unfold querySelectorAll. by rewrite Hs. Qed.

Lemma select_all_log_query sel s d : select_all sel (log_query s d) = select_all sel d.
Proof. reflexivity. Qed.

#[export] Hint Resolve NoDup_select_all : webdb.
#[export] Hint Rewrite elem_of_select_all : webdb.

(** ** Theorems *)

(** The class attribute's ordered set serializer and parser are
    inverse on valid token sets: serializing a set of distinct non-empty
    tokens without whitespace and parsing the result gives the set back;
    and any attribute value, once parsed, serialized and parsed again,
    gives the same set (the update steps' normalisation loses no
    token). *)
Theorem ordered_set_roundtrip ts s :
  Forall valid_token ts → NoDup ts →
  parse_ordered_set (serialize_ordered_set ts) = ts ∧
  parse_ordered_set (serialize_ordered_set (parse_ordered_set s)) = parse_ordered_set s.
Proof.
  intros Hts Hnd. split; [by apply parse_serialize_ordered_set|].
  destruct (parse_ordered_set_valid s) as [Hv Hn]. by apply parse_serialize_ordered_set.
Qed.

Lemma alter_idem {K V} `{Countable K} (f : V → V) (k : K) (m : gmap K V) :
  (∀ v, f (f v) = f v) → alter f k (alter f k m) = alter f k m.
Proof.
  intros Hf. apply map_eq. intros j. destruct (decide (k = j)) as [->|Hne].
  - rewrite !lookup_alter_eq. destruct (m !! j); simpl; [by rewrite Hf|done].
  - by rewrite !lookup_alter_ne.
Qed.

(** [el.classList.add(tokens)] with valid tokens returns normally,
    leaves each added token in the element's token set, and running it a
    second time returns normally and changes nothing (property 4 of the
    spec at the DOM level: no duplicate token, no error). *)
Theorem classList_add_twice id ts d :
  Forall valid_token ts →
  let d1 := (classList_add id ts d).2 in
  classList_add id ts d = (Normal tt, d1) ∧ classList_add id ts d1 = (Normal tt, d1) ∧
  ∀ e, doc_elements d !! id = Some e →
       ∃ e', doc_elements d1 !! id = Some e' ∧ ∀ t, t ∈ ts → t ∈ class_tokens e'.
Proof.
  intros Hts. cbn zeta. rewrite !classList_add_valid by done.
  split; [done|]. split.
  - unfold classList_add_effect, set_elements. cbn. f_equal. f_equal.
    apply alter_idem. intros e. by apply class_list_add_tokens_idem.
  - intros e He. exists (class_list_add_tokens ts e). cbn.
    rewrite lookup_alter_eq, He. split; [done|]. intros t Ht.
    rewrite class_tokens_add by done. apply elem_of_foldl_add_unique. by right.
Qed.

(** ** Witnesses *)

Lemma ordered_set_roundtrip_witness :
  parse_ordered_set (serialize_ordered_set ["a"; "b"]) = ["a"; "b"] ∧
  parse_ordered_set (serialize_ordered_set (parse_ordered_set " b  a b"))
  = parse_ordered_set " b  a b".
Proof.
  apply ordered_set_roundtrip.
  - repeat constructor; discriminate.
  - apply NoDup_cons. split; [|apply NoDup_singleton]. rewrite list_elem_of_singleton. discriminate.
Defined.


Lemma classList_add_twice_witness :
  let d1 := (classList_add 0 ["b"] example_doc).2 in
  classList_add 0 ["b"] example_doc = (Normal tt, d1) ∧ classList_add 0 ["b"] d1 = (Normal tt, d1) ∧
  ∀ e, doc_elements example_doc !! 0 = Some e →
       ∃ e', doc_elements d1 !! 0 = Some e' ∧ ∀ t, t ∈ ["b"] → t ∈ class_tokens e'.
Proof. apply classList_add_twice. repeat constructor; discriminate. Defined.

Lemma classList_add_invalid_witness :
  classList_add 0 (["ok"] ++ "bad token" :: ["x"]) example_doc
  = (Throw InvalidCharacterError, example_doc).
Proof.
  apply classList_add_invalid.
  - repeat constructor; discriminate.
  - vm_compute. reflexivity.
Defined.

Lemma print_parse_selector_witness :
  print_selector (AttrSelector "data-animate") = "[data-animate]" ∧
  is_ident (selector_name (AttrSelector "data-animate")) = true.
Proof. apply print_parse_selector. vm_compute. reflexivity. Defined.
