(* ===== verification/Geometry.v ===== *)
(** * The geometry of the Intersection Observer

    Modelled from the W3C Intersection Observer specification for the
    implicit root (the viewport) with no clipping ancestor: a margin is
    four offsets, each in pixels or per cent of the viewport's width; the
    root intersection rectangle is the viewport with each edge moved
    outwards by its offset; the intersection rectangle is the overlap of
    the target's bounding box with it; [isIntersecting] holds when the two
    rectangles overlap or share an edge, even with zero area;
    [intersectionRatio] is the intersection's area over the target's (or
    1/0 by [isIntersecting] for an empty target); the threshold index is
    the index of the first threshold greater than the ratio, or the
    number of thresholds. Coordinates are integral CSS pixels ([Z]);
    ratios are exact ([Q]). *)

From stdpp Require Import base list.
From Stdlib Require Import ZArith QArith Lia.
From S2P Require Import Prelude.

Local Open Scope Z_scope.

(** A [DOMRect]: origin, width and height. *)
Record Rect := mkRect { rx : Z; ry : Z; rw : Z; rh : Z }.

Definition r_left (r : Rect) : Z := rx r.
Definition r_top (r : Rect) : Z := ry r.
Definition r_right (r : Rect) : Z := rx r + rw r.
Definition r_bottom (r : Rect) : Z := ry r + rh r.
Definition area (r : Rect) : Z := rw r * rh r.

(** Width and height are not negative: what [getBoundingClientRect]
    returns and what a viewport is. *)
Definition rect_wf (r : Rect) : Prop := 0 ≤ rw r ∧ 0 ≤ rh r.

(** One offset of a [rootMargin]: a pixel length or a percentage. *)
Inductive Length := Px (z : Z) | Pct (p : Z).

#[export] Instance Length_eq_dec : EqDecision Length.
Proof. solve_decision. Defined.

(** A parsed [rootMargin] (the [[rootMargin]] slot): the top, right,
    bottom and left offsets. *)
Record Margin := mkMargin { m_top : Length; m_right : Length; m_bottom : Length; m_left : Length }.

#[export] Instance Margin_eq_dec : EqDecision Margin.
Proof. solve_decision. Defined.

(** The margin ["0px"], the default of [rootMargin]. *)
Definition zero_margin : Margin := mkMargin (Px 0) (Px 0) (Px 0) (Px 0).

(** An offset in pixels: "percentages are resolved relative to the width
    of the undilated rectangle", rounded down to a whole pixel. *)
Definition resolve_length (l : Length) (width : Z) : Z :=
  match l with
  | Px z => z
  | Pct p => p * width / 100
  end.

(** The root intersection rectangle: the viewport with each edge moved
    outwards by its offset. *)
Definition root_bounds (viewport : Rect) (m : Margin) : Rect :=
  let w := rw viewport in
  let t := resolve_length (m_top m) w in
  let r := resolve_length (m_right m) w in
  let b := resolve_length (m_bottom m) w in
  let l := resolve_length (m_left m) w in
  mkRect (rx viewport - l) (ry viewport - t) (rw viewport + l + r) (rh viewport + t + b).

Definition inter_left (a b : Rect) : Z := Z.max (r_left a) (r_left b).
Definition inter_right (a b : Rect) : Z := Z.min (r_right a) (r_right b).
Definition inter_top (a b : Rect) : Z := Z.max (r_top a) (r_top b).
Definition inter_bottom (a b : Rect) : Z := Z.min (r_bottom a) (r_bottom b).

(** "targetRect and rootBounds intersect or are edge-adjacent". *)
Definition rects_touch (a b : Rect) : bool :=
  (inter_left a b <=? inter_right a b) && (inter_top a b <=? inter_bottom a b).

(** The area of the intersection rectangle (zero when they do not
    touch). *)
Definition intersection_area (a b : Rect) : Z :=
  if rects_touch a b
  then (inter_right a b - inter_left a b) * (inter_bottom a b - inter_top a b)
  else 0.

(** [intersectionRatio] of a target against the root bounds. *)
Definition intersection_ratio (target root : Rect) : Q :=
  if area target =? 0
  then (if rects_touch target root then 1 else 0)%Q
  else (inject_Z (intersection_area target root) / inject_Z (area target))%Q.

(** The index of the first threshold greater than the ratio, or the
    number of thresholds when none is. *)
Fixpoint threshold_index (ths : list Q) (ratio : Q) : nat :=
  match ths with
  | [] => 0
  | t :: ths' => if Qle_bool t ratio then S (threshold_index ths' ratio) else 0
  end.

(** ** Lemmas *)

Lemma intersection_area_bounds a b :
  rect_wf a → 0 ≤ intersection_area a b ≤ area a.
Proof.
  intros [Hw Hh]. unfold intersection_area, rects_touch, area, inter_left, inter_right,
    inter_top, inter_bottom, r_left, r_right, r_top, r_bottom.
  destruct (Z.leb_spec (Z.max (rx a) (rx b)) (Z.min (rx a + rw a) (rx b + rw b)));
    destruct (Z.leb_spec (Z.max (ry a) (ry b)) (Z.min (ry a + rh a) (ry b + rh b)));
    simpl; nia.
Qed.

(** The ratio is between 0 and 1. *)
Lemma intersection_ratio_bounds target root :
  rect_wf target → (0 <= intersection_ratio target root <= 1)%Q.
Proof.
  intros Hwf. pose proof (intersection_area_bounds target root Hwf) as [H0 H1].
  unfold intersection_ratio.
  destruct (Z.eqb_spec (area target) 0) as [Ha|Ha].
  - destruct (rects_touch target root); split; discriminate.
  - assert (0 < area target) as Hpos
      by (destruct Hwf; unfold area in *; nia).
    assert (0 < inject_Z (area target))%Q as HposQ by (unfold Qlt; simpl; lia).
    split.
    + apply Qle_shift_div_l; [done|]. unfold Qle; simpl; lia.
    + apply Qle_shift_div_r; [done|]. unfold Qle; simpl; lia.
Qed.

(** Rectangles that do not touch have ratio 0. *)
Lemma intersection_ratio_not_touching target root :
  rects_touch target root = false → (intersection_ratio target root == 0)%Q.
Proof.
  intros Ht. unfold intersection_ratio, intersection_area. rewrite Ht.
  destruct (area target =? 0); [reflexivity|]. unfold Qeq; simpl; lia.
Qed.

Lemma threshold_index_le ths r : (threshold_index ths r ≤ length ths)%nat.
Proof. induction ths as [|t ths IH]; simpl; [lia|]. destruct (Qle_bool t r); lia. Qed.

(** For a single threshold, the index is 1 exactly when the ratio reaches
    it. *)
Lemma threshold_index_single t r :
  threshold_index [t] r = 1%nat ↔ (t <= r)%Q.
Proof.
  simpl. rewrite <-Qle_bool_iff. destruct (Qle_bool t r); split; congruence.
Qed.

(** A margin that only moves the bottom edge inwards by [b]: a box that
    overlaps the viewport horizontally and does not lie above it touches
    the root bounds exactly when its top is at most [b] pixels above the
    viewport's bottom edge or higher. *)
Lemma rects_touch_bottom_inset tr vp b :
  rect_wf vp → rect_wf tr → 0 ≤ b ≤ rh vp →
  r_left tr ≤ r_right vp → r_left vp ≤ r_right tr → r_top vp ≤ r_bottom tr →
  rects_touch tr (root_bounds vp (mkMargin (Px 0) (Px 0) (Px (-b)) (Px 0))) = true
  ↔ r_top tr ≤ r_bottom vp - b.
Proof.
  intros [Hvw Hvh] [Htw Hth] Hb. unfold rects_touch, root_bounds, inter_left, inter_right,
    inter_top, inter_bottom, r_left, r_right, r_top, r_bottom. cbn.
  rewrite andb_true_iff, !Z.leb_le. lia.
Qed.

(** ** Witnesses *)

Lemma intersection_ratio_bounds_witness :
  (0 <= intersection_ratio (mkRect 0 750 100 100) (mkRect 0 0 1000 760) <= 1)%Q.
Proof. apply intersection_ratio_bounds. unfold rect_wf. simpl. lia. Defined.
