(* ===== verification/RootMargin.v ===== *)
(** * Parsing and serializing a [rootMargin]

    Modelled from the W3C Intersection Observer specification ("parse a
    root margin", and the [rootMargin] attribute's getter) with the CSS
    tokens it relies on: the string is split on whitespace; more than four
    tokens is a failure; no token means ["0px"]; each token is a pixel
    length ([<integer>px], the unit ASCII case-insensitive) or a
    percentage ([<integer>%]); one, two or three values are expanded the
    way CSS's [margin] shorthand expands them. The getter serializes the
    four offsets joined by a space. Numbers are integers with an optional
    sign; the fractional and exponent forms of CSS numbers are outside the
    model. *)

From stdpp Require Import base list options strings.
From Stdlib Require Import ZArith Ascii DecimalString DecimalZ DecimalPos.
From S2P Require Import Prelude Dom Geometry.

(** ** Numbers *)

(** A CSS integer: an optional [+] or [-] sign and decimal digits. *)
Definition parse_css_integer (s : string) : option Z :=
  match NilZero.int_of_string s with
  | Some d => Some (Z.of_int d)
  | None =>
      match s with
      | String "+" s' => Z.of_uint <$> NilZero.uint_of_string s'
      | _ => None
      end
  end.

(** The shortest decimal form of an integer, as CSS serializes it. *)
Definition show_Z (z : Z) : string := NilZero.string_of_int (Z.to_int z).

(** ** Tokens *)

(** The token without its unit, when it ends in [px] (any case). *)
Definition strip_px (s : string) : option string :=
  (strip_last "x" s ∪ strip_last "X" s) ≫= λ r, strip_last "p" r ∪ strip_last "P" r.

(** A token: a pixel length or a percentage; anything else (a number
    without unit, another unit, a keyword) is a failure. *)
Definition parse_length (s : string) : option Length :=
  match strip_last "%" s with
  | Some n => Pct <$> parse_css_integer n
  | None => strip_px s ≫= λ n, Px <$> parse_css_integer n
  end.

Definition serialize_length (l : Length) : string :=
  match l with
  | Px z => show_Z z +:+ "px"
  | Pct p => show_Z p +:+ "%"
  end.

(** The [margin] shorthand: one value for all sides; two for vertical and
    horizontal; three for top, horizontal and bottom; four clockwise from
    the top. *)
Definition expand_margin (ls : list Length) : option Margin :=
  match ls with
  | [] => Some zero_margin
  | [a] => Some (mkMargin a a a a)
  | [a; b] => Some (mkMargin a b a b)
  | [a; b; c] => Some (mkMargin a b c b)
  | [a; b; c; d] => Some (mkMargin a b c d)
  | _ => None
  end.

(** "Parse a root margin": [None] is the failure on which the constructor
    throws a [SyntaxError]. *)
Definition parse_root_margin (s : string) : option Margin :=
  let ts := split_on_ascii_whitespace s in
  if decide (4 < length ts)%nat then None
  else mapM parse_length ts ≫= expand_margin.

(** The [rootMargin] getter: the four offsets serialized, joined by a
    space. *)
Definition serialize_root_margin (m : Margin) : string :=
  String.concat " " (serialize_length <$> [m_top m; m_right m; m_bottom m; m_left m]).

(** ** Lemmas *)

Lemma to_int_nonnil z : Z.to_int z ≠ Decimal.Pos Decimal.Nil ∧ Z.to_int z ≠ Decimal.Neg Decimal.Nil.
Proof.
  destruct z as [|p|p]; simpl; split; try discriminate;
    intros [=]; by apply (DecimalPos.Unsigned.to_uint_nonnil p).
Qed.

(** Printing an integer and parsing it back gives the integer. *)
Lemma parse_show_Z z : parse_css_integer (show_Z z) = Some z.
Proof.
  unfold parse_css_integer, show_Z. destruct (to_int_nonnil z) as [H1 H2].
  rewrite NilZero.isi by done. by rewrite DecimalZ.of_to.
Qed.

Lemma has_ascii_ws_uint d : has_ascii_ws (NilEmpty.string_of_uint d) = false.
Proof. induction d; simpl; auto. Qed.

Lemma has_ascii_ws_show_Z z : has_ascii_ws (show_Z z) = false.
Proof.
  unfold show_Z, NilZero.string_of_int, NilZero.string_of_uint.
  destruct (Z.to_int z) as [[]|[]]; simpl; rewrite ?has_ascii_ws_uint; done.
Qed.

Lemma string_px s : s +:+ "px" = (s +:+ "p") +:+ String "x" EmptyString.
Proof. by rewrite <-string_app_assoc. Qed.

Lemma parse_serialize_length l : parse_length (serialize_length l) = Some l.
Proof.
  destruct l as [z|p]; unfold parse_length, serialize_length.
  - rewrite string_px. unfold strip_px. rewrite !strip_last_snoc.
    rewrite decide_False, decide_True, decide_False by done. cbn -[parse_css_integer show_Z].
    rewrite strip_last_app, union_Some_l. cbn -[parse_css_integer show_Z]. by rewrite parse_show_Z.
  - rewrite strip_last_app. simpl. by rewrite parse_show_Z.
Qed.

Lemma serialize_length_token l :
  serialize_length l ≠ EmptyString ∧ has_ascii_ws (serialize_length l) = false.
Proof.
  destruct l; unfold serialize_length; (split;
    [destruct (show_Z _); discriminate|by rewrite has_ascii_ws_app, has_ascii_ws_show_Z]).
Qed.

(** ** Theorems *)

(** Serializing a margin (the [rootMargin] getter) and parsing the result
    gives the margin back. *)
Theorem parse_serialize_root_margin m :
  parse_root_margin (serialize_root_margin m) = Some m.
Proof.
  unfold parse_root_margin, serialize_root_margin.
  rewrite split_serialize by (apply Forall_fmap, Forall_forall; intros l _; apply serialize_length_token).
  rewrite decide_False by (rewrite length_fmap; simpl; lia).
  rewrite mapM_fmap_Some by apply parse_serialize_length. by destruct m.
Qed.
