(* ===== verification/IntersectionObserver.v ===== *)
(** * The Intersection Observer

    Modelled from the W3C Intersection Observer specification, for one
    observer with the implicit root: its thresholds and root margin, its
    registrations (the [[ObservationTargets]] slot in order, each with the
    registration's [previousThresholdIndex] and [previousIsIntersecting]),
    and its [[QueuedEntries]]. Operations: the constructor, which parses
    [options.rootMargin] ([SyntaxError]), validates and sorts the
    thresholds ([RangeError]); [observe]; [unobserve]; "run the update
    intersection observations steps" for one rendering update (the layout
    gives each target's bounding box, [None] for a target without a box);
    and the notification's "copy the queue, clear it". The class
    [ObserverAPI] with [ObserverLaws] is what the script relies on; the
    concrete observer is its instance. *)

From stdpp Require Import base list sets strings sorting.
From Stdlib Require Import ZArith QArith Lia.
From S2P Require Import Prelude Geometry RootMargin.

Local Open Scope js_scope.

(** ** Data *)

(** An [IntersectionObserverEntry], with the fields the model keeps. *)
Record Entry := mkEntry {
  entry_target : nat;
  entry_isIntersecting : bool;
  entry_ratio : Q
}.

(** An [IntersectionObserverRegistration] of a target. *)
Record Registration := mkReg {
  reg_target : nat;
  reg_prev_index : Z;
  reg_prev_isect : bool
}.

Record Observer := mkObserver {
  io_thresholds : list Q;
  io_margin : Margin;
  io_regs : list Registration;
  io_queue : list Entry
}.

Definition io_targets (o : Observer) : list nat := map reg_target (io_regs o).

Definition set_regs (rs : list Registration) (o : Observer) : Observer :=
  mkObserver (io_thresholds o) (io_margin o) rs (io_queue o).

(** ** The constructor *)

Fixpoint insert_sorted (q : Q) (l : list Q) : list Q :=
  match l with
  | [] => [q]
  | x :: l' => if Qle_bool q x then q :: l else x :: insert_sorted q l'
  end.

(** "Sort thresholds in ascending order": an insertion sort. *)
Definition sort_thresholds (l : list Q) : list Q := foldr insert_sorted [] l.

Definition threshold_in_range (q : Q) : bool := Qle_bool 0 q && Qle_bool q 1.

(** The [threshold] member of [IntersectionObserverInit]: a number or a
    list of numbers. *)
Inductive ThresholdInit := ThresholdNumber (q : Q) | ThresholdList (qs : list Q).

Definition threshold_list (t : ThresholdInit) : list Q :=
  match t with
  | ThresholdNumber q => [q]
  | ThresholdList qs => qs
  end.

(** The members of [IntersectionObserverInit] the model keeps. *)
Record ObserverInit := mkObserverInit {
  opt_threshold : ThresholdInit;
  opt_rootMargin : string
}.

(** [new IntersectionObserver(callback, options)]: parse
    [options.rootMargin], a [SyntaxError] on failure; then a [RangeError]
    when a threshold is outside [[0, 1]]; otherwise the thresholds sorted
    ascending, [[0]] when there are none; no registration and an empty
    queue. *)
Definition new_observer (opts : ObserverInit) : completion Observer :=
  match parse_root_margin (opt_rootMargin opts) with
  | None => Throw SyntaxError
  | Some m =>
      let ths := threshold_list (opt_threshold opts) in
      if forallb threshold_in_range ths
      then Normal (mkObserver (match sort_thresholds ths with
                               | [] => [0%Q]
                               | l => l
                               end) m [] [])
      else Throw RangeError
  end.

(** ** [observe] and [unobserve] *)

(** [observer.observe(target)]: nothing when the target is already
    observed; otherwise a registration with [previousThresholdIndex = -1]
    and [previousIsIntersecting = false] is appended. *)
Definition observe (t : nat) (o : Observer) : Observer :=
  if decide (t ∈ io_targets o) then o
  else set_regs (io_regs o ++ [mkReg t (-1) false]) o.

(** [observer.unobserve(target)]: the target's registration is removed. *)
Definition unobserve (t : nat) (o : Observer) : Observer :=
  set_regs (filter (λ r, reg_target r ≠ t) (io_regs o)) o.

(** ** Updating the observations at a rendering update *)

(** The layout of one rendering update: the viewport and each element's
    bounding box ([None]: no layout box). *)
Record Layout := mkLayout {
  viewport : Rect;
  bounding_box : nat → option Rect
}.

(** Steps 1 to 16 of the update for one target: its threshold index,
    [isIntersecting] and [intersectionRatio]. *)
Definition compute_observation (o : Observer) (lay : Layout) (t : nat) : Z * bool * Q :=
  match bounding_box lay t with
  | None => (0%Z, false, 0%Q)
  | Some tr =>
      let rb := root_bounds (viewport lay) (io_margin o) in
      let ratio := intersection_ratio tr rb in
      (Z.of_nat (threshold_index (io_thresholds o) ratio), rects_touch tr rb, ratio)
  end.

(** Steps 17 to 19: queue an entry when the threshold index or
    [isIntersecting] changed, and record both in the registration. *)
Definition update_registration (o : Observer) (lay : Layout) (r : Registration)
    : Registration * list Entry :=
  let '(ti, isect, ratio) := compute_observation o lay (reg_target r) in
  (mkReg (reg_target r) ti isect,
   if (ti =? reg_prev_index r)%Z && Bool.eqb isect (reg_prev_isect r)
   then [] else [mkEntry (reg_target r) isect ratio]).

(** The update for every target of the observer, in the order of
    [[ObservationTargets]]; the new entries are appended to the queue. *)
Definition update_observations (lay : Layout) (o : Observer) : Observer :=
  let results := map (update_registration o lay) (io_regs o) in
  mkObserver (io_thresholds o) (io_margin o) (map fst results)
             (io_queue o ++ concat (map snd results)).

(** The notification: a copy of the queue, and the observer with an empty
    queue. *)
Definition take_records (o : Observer) : list Entry * Observer :=
  (io_queue o, mkObserver (io_thresholds o) (io_margin o) (io_regs o) []).

(** A layout used by the witnesses. *)
(** ** Witnesses *)

Definition example_layout : Layout := mkLayout (mkRect 0 0 1000 800) (λ _, Some (mkRect 0 0 10 10)).

(** ** The interface the script relies on *)

(** What the script calls on its observer: [observe], [unobserve], and
    the list of observed targets those calls change. *)
Class ObserverAPI (O : Type) := {
  api_observe : nat → O → O;
  api_unobserve : nat → O → O;
  api_targets : O → list nat
}.

(** The observer's promise: [observe] adds a target once, [unobserve]
    removes it, and the order of the other targets is kept. *)
Class ObserverLaws (O : Type) `{!ObserverAPI O} : Prop := {
  api_observe_targets t o : api_targets (api_observe t o) = add_unique t (api_targets o);
  api_unobserve_targets t o : api_targets (api_unobserve t o) = list_remove t (api_targets o)
}.

#[export] Instance observer_api : ObserverAPI Observer := {|
  api_observe := observe;
  api_unobserve := unobserve;
  api_targets := io_targets
|}.

(** ** Lemmas *)

Lemma forallb_threshold_in_range ths :
  forallb threshold_in_range ths = true ↔ Forall (λ q, 0 <= q <= 1)%Q ths.
Proof.
  rewrite forallb_forall, Forall_forall. unfold threshold_in_range.
  setoid_rewrite andb_true_iff. setoid_rewrite Qle_bool_iff.
  split; intros H q Hq; apply H; by apply list_elem_of_In.
Qed.

Lemma insert_sorted_perm q l : insert_sorted q l ≡ₚ q :: l.
Proof.
  induction l as [|x l IH]; simpl; [done|].
  destruct (Qle_bool q x); [done|]. rewrite IH. apply Permutation_swap.
Qed.

(** The sorted thresholds are a permutation of the given ones. *)
Lemma sort_thresholds_perm l : sort_thresholds l ≡ₚ l.
Proof. induction l as [|q l IH]; simpl; [done|]. by rewrite insert_sorted_perm, IH. Qed.

Lemma insert_sorted_hdrel q x l :
  (x <= q)%Q → HdRel Qle x l → HdRel Qle x (insert_sorted q l).
Proof.
  intros Hxq Hx. destruct l as [|y l]; simpl; [by constructor|].
  destruct (Qle_bool q y); constructor; [done|]. by inversion Hx.
Qed.

Lemma insert_sorted_sorted q l : Sorted Qle l → Sorted Qle (insert_sorted q l).
Proof.
  induction l as [|x l IH]; intros Hs; simpl; [by repeat constructor|].
  destruct (Qle_bool q x) eqn:Hq.
  - apply Qle_bool_iff in Hq. by constructor; [|constructor].
  - apply Sorted_inv in Hs as [Hl Hx]. constructor; [by apply IH|].
    apply insert_sorted_hdrel; [|done].
    apply Qlt_le_weak, Qnot_le_lt. intros Hle. apply Qle_bool_iff in Hle. congruence.
Qed.

(** The sorted thresholds are in ascending order. *)
Lemma sort_thresholds_sorted l : Sorted Qle (sort_thresholds l).
Proof. induction l; simpl; [constructor|by apply insert_sorted_sorted]. Qed.

Lemma observe_targets t o : io_targets (observe t o) = add_unique t (io_targets o).
Proof.
  unfold observe, add_unique. case_decide; [done|].
  unfold io_targets, set_regs. simpl. by rewrite map_app.
Qed.

Lemma map_filter_reg_target (rs : list Registration) t :
  map reg_target (filter (λ r, reg_target r ≠ t) rs) = list_remove t (map reg_target rs).
Proof.
  unfold list_remove. induction rs as [|r rs IH]; [done|]. simpl.
  rewrite !filter_cons. destruct (decide (reg_target r ≠ t)); simpl; by rewrite IH.
Qed.

Lemma unobserve_targets t o : io_targets (unobserve t o) = list_remove t (io_targets o).
Proof. apply map_filter_reg_target. Qed.

#[export] Instance observer_laws : ObserverLaws Observer.
Proof. split; [apply observe_targets | apply unobserve_targets]. Qed.

Lemma update_registration_target o lay r :
  reg_target (update_registration o lay r).1 = reg_target r.
Proof. unfold update_registration. by destruct (compute_observation o lay (reg_target r)) as [[]]. Qed.

(** A rendering update keeps the observed targets and their order. *)
Lemma update_observations_targets lay o : io_targets (update_observations lay o) = io_targets o.
Proof.
  unfold io_targets, update_observations. simpl. rewrite !map_map.
  apply map_ext, update_registration_target.
Qed.

(** The entry an update queues for a registration carries the target and
    the [isIntersecting] just computed for it. *)
Lemma update_registration_entry o lay r e :
  e ∈ (update_registration o lay r).2 →
  entry_target e = reg_target r ∧
  entry_isIntersecting e = (compute_observation o lay (reg_target r)).1.2.
Proof.
  unfold update_registration. destruct (compute_observation o lay (reg_target r)) as [[ti isect] q].
  simpl. case_match; [set_solver|]. rewrite list_elem_of_singleton. by intros ->.
Qed.

(** An entry queued by a rendering update was queued before or comes from
    the update of one of the registrations. *)
Lemma elem_of_update_observations_queue lay o e :
  e ∈ io_queue (update_observations lay o) →
  e ∈ io_queue o ∨ ∃ r, r ∈ io_regs o ∧ e ∈ (update_registration o lay r).2.
Proof.
  unfold update_observations. simpl. rewrite elem_of_app. intros [He|He]; [by left|right].
  apply list_elem_of_In, in_concat in He as (es & Hes & He).
  rewrite map_map in Hes. apply in_map_iff in Hes as (r & <- & Hr).
  exists r. split; by apply list_elem_of_In.
Qed.

(** A rendering update queues entries only for observed targets. *)
Lemma update_observations_queue lay o e :
  e ∈ io_queue (update_observations lay o) →
  e ∈ io_queue o ∨ entry_target e ∈ io_targets o.
Proof.
  intros [He|(r & Hr & He)]%elem_of_update_observations_queue; [by left|right].
  rewrite (proj1 (update_registration_entry _ _ _ _ He)). unfold io_targets.
  by apply list_elem_of_fmap_2.
Qed.

Lemma observe_queue t o : io_queue (observe t o) = io_queue o.
Proof. unfold observe. by case_decide. Qed.

Lemma unobserve_queue t o : io_queue (unobserve t o) = io_queue o.
Proof. reflexivity. Qed.

Lemma take_records_targets o : io_targets (take_records o).2 = io_targets o.
Proof. reflexivity. Qed.

Lemma update_registration_in_queue lay o r e :
  r ∈ io_regs o → e ∈ (update_registration o lay r).2 →
  e ∈ io_queue (update_observations lay o).
Proof.
  intros Hr He. unfold update_observations. cbn [io_queue].
  apply elem_of_app. right. apply list_elem_of_In, in_concat.
  exists (update_registration o lay r).2. split; [|by apply list_elem_of_In].
  apply in_map_iff. exists (update_registration o lay r). split; [done|].
  apply in_map, list_elem_of_In, Hr.
Qed.

(** After an update, each registration records the [isIntersecting] just
    computed for its target. *)
Lemma update_observations_regs lay o r' :
  r' ∈ io_regs (update_observations lay o) →
  ∃ r, r ∈ io_regs o ∧ reg_target r' = reg_target r ∧
       reg_prev_isect r' = (compute_observation o lay (reg_target r)).1.2 ∧
       (reg_prev_isect r' = true → reg_prev_isect r = true →
        (∃ q, mkEntry (reg_target r) true q ∈ io_queue o) →
        ∃ q, mkEntry (reg_target r) true q ∈ io_queue (update_observations lay o)) ∧
       (reg_prev_isect r' = true → reg_prev_isect r = false →
        ∃ q, mkEntry (reg_target r) true q ∈ io_queue (update_observations lay o)).
Proof.
  unfold update_observations at 1. cbn [io_regs]. rewrite map_map.
  intros (r & -> & Hr)%list_elem_of_fmap. exists r. split; [done|].
  pose proof (update_registration_in_queue lay o r) as Hin.
  unfold update_registration in *.
  destruct (compute_observation o lay (reg_target r)) as [[ti isect] q] eqn:Hc. cbn.
  split; [done|]. split; [done|]. split.
  - intros -> _ (q' & Hq'). exists q'. unfold update_observations. cbn [io_queue].
    apply elem_of_app. by left.
  - intros -> Hprev. exists q. apply Hin; [done|]. cbn. rewrite Hprev, andb_false_r.
    by left.
Qed.

(** [isIntersecting] is false for a target whose box does not touch the
    root bounds, or that has no box. *)
Lemma compute_observation_isect_false o lay t :
  (∀ tr, bounding_box lay t = Some tr →
         rects_touch tr (root_bounds (viewport lay) (io_margin o)) = false) →
  (compute_observation o lay t).1.2 = false.
Proof.
  intros H. unfold compute_observation.
  destruct (bounding_box lay t) as [tr|] eqn:Hb; [cbn; by apply H|done].
Qed.

(** A target whose [isIntersecting] changed since the last update gets an
    entry carrying the new value. *)
Lemma update_observations_queues lay o r :
  r ∈ io_regs o →
  (compute_observation o lay (reg_target r)).1.2 ≠ reg_prev_isect r →
  ∃ q, mkEntry (reg_target r) (compute_observation o lay (reg_target r)).1.2 q
       ∈ io_queue (update_observations lay o).
Proof.
  intros Hr Hch. pose proof (update_registration_in_queue lay o r) as Hin.
  unfold update_registration in Hin.
  destruct (compute_observation o lay (reg_target r)) as [[ti isect] q] eqn:Hc. cbn in Hch |- *.
  exists q. apply Hin; [done|]. cbn.
  destruct (Bool.eqb_spec isect (reg_prev_isect r)); [contradiction|].
  rewrite andb_false_r. by left.
Qed.

Lemma observe_new_regs t o :
  t ∉ io_targets o → io_regs (observe t o) = io_regs o ++ [mkReg t (-1) false].
Proof. intros Ht. unfold observe. by rewrite decide_False. Qed.

Lemma compute_observation_touch o lay t tr :
  bounding_box lay t = Some tr →
  (compute_observation o lay t).1.2 = rects_touch tr (root_bounds (viewport lay) (io_margin o)).
Proof. unfold compute_observation. by intros ->. Qed.

Lemma compute_observation_index o lay t :
  (0 <= (compute_observation o lay t).1.1)%Z.
Proof. unfold compute_observation. destruct (bounding_box lay t); simpl; lia. Qed.

(** ** Theorems *)

(** [observe] registers a target once: observing an observed target
    changes nothing (in particular its previous threshold index and
    [isIntersecting] are not reset), observing a new one appends it;
    neither touches the queue. [unobserve] removes the target and is
    idempotent. *)
Theorem observe_unobserve_spec t o :
  io_targets (observe t o) = add_unique t (io_targets o) ∧
  (t ∈ io_targets o → observe t o = o) ∧
  io_queue (observe t o) = io_queue o ∧
  (t ∉ io_targets (unobserve t o)) ∧
  unobserve t (unobserve t o) = unobserve t o.
Proof.
  split; [apply observe_targets|]. split; [intros Ht; unfold observe; by rewrite decide_True|].
  split; [apply observe_queue|]. split.
  - rewrite unobserve_targets, elem_of_list_remove. tauto.
  - unfold unobserve, set_regs. cbn. f_equal.
    rewrite list_filter_filter. apply list_filter_iff. tauto.
Qed.

(** The first rendering update after a new target is observed always
    queues an entry for it, whatever its geometry, carrying the
    [isIntersecting] computed for it: the registration starts with
    [previousThresholdIndex = -1], which no threshold index equals. *)
Theorem first_update_queues lay t o :
  t ∉ io_targets o →
  ∃ q, mkEntry t (compute_observation o lay t).1.2 q
       ∈ io_queue (update_observations lay (observe t o)).
Proof.
  intros Ht. pose proof (compute_observation_index o lay t) as Hi.
  assert (compute_observation (observe t o) lay t = compute_observation o lay t) as Hc
    by (unfold observe; by case_decide).
  destruct (compute_observation o lay t) as [[ti isect] q] eqn:Hco. cbn in Hi |- *.
  exists q. unfold update_observations. cbn [io_queue].
  rewrite observe_queue. apply elem_of_app. right.
  rewrite observe_new_regs by done. rewrite !map_app, concat_app.
  apply elem_of_app. right. cbn [map concat]. rewrite app_nil_r.
  unfold update_registration. cbn [reg_target reg_prev_index reg_prev_isect]. rewrite Hc.
  destruct (Z.eqb_spec ti (-1)); [lia|]. cbn. set_solver.
Qed.

(** The constructor parses the root margin first: a [SyntaxError] when
    it does not parse. With a margin, a [RangeError] when a threshold is
    outside [[0, 1]]; otherwise an observer with that margin, no
    registration, an empty queue, and the thresholds sorted ascending: a
    permutation of the given ones, or [[0]] when none is given. *)
Theorem new_observer_validates opts :
  let ths := threshold_list (opt_threshold opts) in
  (parse_root_margin (opt_rootMargin opts) = None → new_observer opts = Throw SyntaxError) ∧
  ∀ m, parse_root_margin (opt_rootMargin opts) = Some m →
    (¬ Forall (λ q, 0 <= q <= 1)%Q ths → new_observer opts = Throw RangeError) ∧
    (Forall (λ q, 0 <= q <= 1)%Q ths →
     ∃ o, new_observer opts = Normal o ∧ io_margin o = m ∧ io_regs o = [] ∧ io_queue o = [] ∧
          Sorted Qle (io_thresholds o) ∧
          (ths ≠ [] → io_thresholds o ≡ₚ ths) ∧ (ths = [] → io_thresholds o = [0%Q])).
Proof.
  cbn zeta. unfold new_observer. split; [by intros ->|]. intros m Hm. rewrite Hm.
  rewrite <-forallb_threshold_in_range. split.
  - intros H. by destruct forallb.
  - intros ->. eexists. split; [done|]. do 3 (split; [done|]). cbn [io_thresholds].
    destruct (sort_thresholds _) as [|q l] eqn:Hs.
    + split; [repeat constructor|]. split; [|done]. intros Hne.
      exfalso. apply Hne, Permutation_nil. rewrite <-Hs. apply sort_thresholds_perm.
    + rewrite <-Hs. split; [apply sort_thresholds_sorted|]. split; [intros _; apply sort_thresholds_perm|].
      intros Hnil. rewrite Hnil in Hs. discriminate.
Qed.

Lemma observe_unobserve_spec_witness :
  let o := mkObserver [1] zero_margin [] [] in
  io_targets (observe 7%nat o) = add_unique 7%nat (io_targets o) ∧
  (7%nat ∈ io_targets o → observe 7%nat o = o) ∧
  io_queue (observe 7%nat o) = io_queue o ∧
  (7%nat ∉ io_targets (unobserve 7%nat o)) ∧
  unobserve 7%nat (unobserve 7%nat o) = unobserve 7%nat o.
Proof. apply observe_unobserve_spec. Defined.

Lemma first_update_queues_witness :
  ∃ q, mkEntry 7%nat (compute_observation (mkObserver [1] zero_margin [] []) example_layout 7%nat).1.2 q
       ∈ io_queue (update_observations example_layout (observe 7%nat (mkObserver [1] zero_margin [] []))).
Proof. apply first_update_queues. vm_compute. apply not_elem_of_nil. Defined.

Lemma new_observer_validates_witness :
  let opts := mkObserverInit (ThresholdList [1; 0; 1 # 2]%Q) "8px 10%" in
  let ths := threshold_list (opt_threshold opts) in
  (parse_root_margin (opt_rootMargin opts) = None → new_observer opts = Throw SyntaxError) ∧
  ∀ m, parse_root_margin (opt_rootMargin opts) = Some m →
    (¬ Forall (λ q, 0 <= q <= 1)%Q ths → new_observer opts = Throw RangeError) ∧
    (Forall (λ q, 0 <= q <= 1)%Q ths →
     ∃ o, new_observer opts = Normal o ∧ io_margin o = m ∧ io_regs o = [] ∧ io_queue o = [] ∧
          Sorted Qle (io_thresholds o) ∧
          (ths ≠ [] → io_thresholds o ≡ₚ ths) ∧ (ths = [] → io_thresholds o = [0%Q])).
Proof. apply new_observer_validates. Defined.
