(* ===== verification/Animations.v ===== *)
(** * The script: src/assets/js/animations.js

    The IIFE's state is the document and the [observer] variable its
    functions close over; [World] holds both. The Section [Script] is
    written against any observer [O] with [ObserverAPI] and proved against
    [ObserverLaws]: the callback ([on_entry] per entry, lines 6-11), [init]
    (lines 17-28) and the top-level choice on [readyState] (lines 30-34).
    The observer's construction with its options (lines 5-15) is
    [run_script], at the concrete [Observer]. *)

From stdpp Require Import base list gmap sets strings.
From Stdlib Require Import ZArith QArith.
From S2P Require Import Prelude Dom Geometry RootMargin IntersectionObserver.

Local Open Scope js_scope.

Record World (O : Type) := mkWorld { w_doc : Document; w_obs : O }.
Arguments mkWorld {O} _ _.
Arguments w_doc {O} _.
Arguments w_obs {O} _.

(** The class the callback adds. *)
Definition IS_VISIBLE : string := "is-visible".

(** The name of the listener [init] is registered as. *)
Definition INIT : string := "init".

Definition SEL_ANIMATE : string := "[data-animate]".
Definition SEL_CHART : string := ".svg-chart-wrap".

Section Script.
Context {O : Type} `{!ObserverAPI O}.

(** Running a document operation on the world's document. *)
Definition on_doc {A} (m : JS Document A) : JS (World O) A :=
  λ w, let '(r, d') := m (w_doc w) in (r, mkWorld d' (w_obs w)).

Definition observer_observe (t : nat) : JS (World O) unit :=
  js_modify (λ w, mkWorld (w_doc w) (api_observe t (w_obs w))).

Definition observer_unobserve (t : nat) : JS (World O) unit :=
  js_modify (λ w, mkWorld (w_doc w) (api_unobserve t (w_obs w))).

(** Lines 6-11, for one entry: an intersecting entry's target gets the
    class [is-visible] and is unobserved; any other entry is ignored. *)
Definition on_entry (entry : Entry) : JS (World O) unit :=
  if entry_isIntersecting entry then
    on_doc (classList_add (entry_target entry) [IS_VISIBLE]) ;;;
    observer_unobserve (entry_target entry)
  else js_ret tt.

(** Lines 5-11: the observer's callback, [entries.forEach(...)]. *)
Definition callback (entries : list Entry) : JS (World O) unit :=
  forEach on_entry entries.

(** Lines 17-28: [init]. *)
Definition init : JS (World O) unit :=
  elements <- on_doc (querySelectorAll SEL_ANIMATE) ;;
  forEach observer_observe elements ;;;
  charts <- on_doc (querySelectorAll SEL_CHART) ;;
  forEach observer_observe charts.

(** Lines 30-34: defer [init] to [DOMContentLoaded] while the document
    is loading, run it now otherwise. *)
Definition start : JS (World O) unit :=
  rs <- on_doc (js_gets readyState) ;;
  if decide (rs = Loading)
  then on_doc (addEventListener "DOMContentLoaded" INIT)
  else init.

(** The effects of the script's steps, written as functions of the world;
    the lemmas below show that the steps have them. *)
Definition entry_effect (e : Entry) (w : World O) : World O :=
  if entry_isIntersecting e
  then mkWorld (classList_add_effect (entry_target e) [IS_VISIBLE] (w_doc w))
               (api_unobserve (entry_target e) (w_obs w))
  else w.

Definition observe_effect (t : nat) (w : World O) : World O :=
  mkWorld (w_doc w) (api_observe t (w_obs w)).

(** [observer.observe] on each id of a list, in order. *)
Definition observe_all (l : list nat) (o : O) : O := foldl (λ o t, api_observe t o) o l.

End Script.

(** Lines 12-15: the observer's options, [threshold: 0.15] and
    [rootMargin: '0px 0px -40px 0px']. *)
Definition animations_options : ObserverInit :=
  mkObserverInit (ThresholdNumber (15 # 100)) "0px 0px -40px 0px".

(** Lines 2-35: the IIFE. It constructs the observer (line 5), then runs
    [start]; the resulting world keeps the observer for the page. A
    constructor exception would end the script with no observer. *)
Definition run_script (d : Document) : completion unit * Document * option (World Observer) :=
  match new_observer animations_options with
  | Throw e => (Throw e, d, None)
  | Normal o => let '(r, w) := start (mkWorld d o) in (r, w_doc w, Some w)
  end.

(** The margin the constructor parses from the script's [rootMargin]: the
    bottom edge moved 40 pixels inwards. *)
Definition script_margin : Margin := mkMargin (Px 0) (Px 0) (Px (-40)) (Px 0).

(** The observer the script constructs. *)
Definition script_observer : Observer := mkObserver [15 # 100] script_margin [] [].

(** The targets of the intersecting entries of a batch, in order. *)
Definition marked (entries : list Entry) : list nat :=
  map entry_target (filter (λ e, entry_isIntersecting e = true) entries).

(** The class-adding function the callback applies to an element. *)
Definition mark_visible : Element → Element := class_list_add_tokens [IS_VISIBLE].

(** The document after [init]: the two queries logged, nothing else. *)
Definition init_doc (d : Document) : Document :=
  log_query SEL_CHART (log_query SEL_ANIMATE d).

(** The candidates of [init], in the order it registers them. *)
Definition candidates (d : Document) : list nat :=
  select_all (AttrSelector "data-animate") d ++ select_all (ClassSelector "svg-chart-wrap") d.

(** ** Lemmas *)

Lemma world_eta {O} (w : World O) : w = mkWorld (w_doc w) (w_obs w).
Proof. by destruct w. Qed.

(** ** The script's effects, stated against [ObserverLaws] *)

Lemma IS_VISIBLE_valid : valid_token IS_VISIBLE.
Proof. split; [discriminate|reflexivity]. Qed.

Lemma IS_VISIBLE_valid_list : Forall valid_token [IS_VISIBLE].
Proof. repeat constructor; apply IS_VISIBLE_valid. Qed.

Lemma mark_visible_idem e : mark_visible (mark_visible e) = mark_visible e.
Proof. apply class_list_add_tokens_idem, IS_VISIBLE_valid_list. Qed.

Section ScriptLemmas.
Context {O : Type} `{!ObserverAPI O, !ObserverLaws O}.
Implicit Types (w : World O) (es : list Entry).

Lemma on_entry_spec e : js_pure_step (on_entry e) (entry_effect e).
Proof.
  intros w. unfold on_entry, entry_effect.
  destruct (entry_isIntersecting e); [|done].
  unfold js_bind, on_doc.
  rewrite (classList_add_valid _ _ IS_VISIBLE_valid_list).
  reflexivity.
Qed.

Lemma callback_spec es :
  js_pure_step (callback es) (λ w, foldl (λ w e, entry_effect e w) w es).
Proof. apply forEach_pure_step. intros e _. apply on_entry_spec. Qed.

Lemma callback_effect_doc es w :
  w_doc (foldl (λ w e, entry_effect e w) w es)
  = set_elements (foldl (λ m k, alter mark_visible k m) (doc_elements (w_doc w)) (marked es))
                 (w_doc w).
Proof.
  revert w. induction es as [|e es IH]; intros w; simpl.
  - by destruct (w_doc w).
  - rewrite IH. unfold entry_effect, marked. simpl.
    destruct (entry_isIntersecting e) eqn:He; simpl.
    + rewrite filter_cons_True by done. done.
    + by rewrite filter_cons_False by congruence.
Qed.

Lemma callback_effect_targets es w :
  api_targets (w_obs (foldl (λ w e, entry_effect e w) w es))
  = filter (λ t, t ∉ marked es) (api_targets (w_obs w)).
Proof.
  revert w. induction es as [|e es IH]; intros w; simpl.
  - symmetry. apply list_filter_id. intros t _. apply not_elem_of_nil.
  - rewrite IH. unfold entry_effect, marked.
    destruct (entry_isIntersecting e) eqn:He; simpl.
    + rewrite filter_cons_True by done. simpl.
      rewrite api_unobserve_targets. unfold list_remove. rewrite list_filter_filter.
      apply list_filter_iff. intros t. rewrite elem_of_cons. tauto.
    + by rewrite filter_cons_False by congruence.
Qed.

Lemma on_doc_step {A} (m : JS Document A) (r : completion A) d' w :
  m (w_doc w) = (r, d') → on_doc m w = (r, mkWorld d' (w_obs w)).
Proof. intros Hm. unfold on_doc. by rewrite Hm. Qed.

Lemma forEach_observe l w :
  forEach observer_observe l w = (Normal tt, foldl (λ w t, observe_effect t w) w l).
Proof. apply forEach_pure. intros t _ w'. reflexivity. Qed.

Lemma observe_effects l w :
  foldl (λ w t, observe_effect t w) w l = mkWorld (w_doc w) (observe_all l (w_obs w)).
Proof.
  unfold observe_all. revert w. induction l as [|t l IH]; intros w; simpl.
  - apply world_eta.
  - by rewrite IH.
Qed.

Lemma observe_all_targets l o :
  api_targets (observe_all l o) = foldl (λ acc x, add_unique x acc) (api_targets o) l.
Proof.
  unfold observe_all. revert o. induction l as [|t l IH]; intros o; simpl; [done|].
  by rewrite IH, api_observe_targets.
Qed.

Lemma select_sel_animate d :
  querySelectorAll SEL_ANIMATE d
  = (Normal (select_all (AttrSelector "data-animate") d), log_query SEL_ANIMATE d).
Proof. by apply (querySelectorAll_print (AttrSelector "data-animate")). Qed.

Lemma select_sel_chart d :
  querySelectorAll SEL_CHART d
  = (Normal (select_all (ClassSelector "svg-chart-wrap") d), log_query SEL_CHART d).
Proof. by apply (querySelectorAll_print (ClassSelector "svg-chart-wrap")). Qed.

Lemma init_effect w :
  init w = (Normal tt, mkWorld (init_doc (w_doc w)) (observe_all (candidates (w_doc w)) (w_obs w))).
Proof.
  destruct w as [d o]. unfold init.
  rewrite (js_bind_normal _ _ _ (select_all (AttrSelector "data-animate") d)
             (mkWorld (log_query SEL_ANIMATE d) o))
    by (apply on_doc_step, select_sel_animate).
  rewrite (js_bind_normal _ _ _ tt _) by apply forEach_observe.
  rewrite observe_effects. cbn [w_doc w_obs].
  rewrite (js_bind_normal _ _ _ (select_all (ClassSelector "svg-chart-wrap") d)
             (mkWorld (init_doc d) (observe_all (select_all (AttrSelector "data-animate") d) o)))
    by (apply on_doc_step, select_sel_chart).
  rewrite forEach_observe, observe_effects. cbn [w_doc w_obs].
  unfold candidates, observe_all. by rewrite foldl_app.
Qed.

Lemma set_elements_twice m1 m2 d : set_elements m2 (set_elements m1 d) = set_elements m2 d.
Proof. reflexivity. Qed.

(** The callback's outcome, element by element. *)
Lemma callback_outcome es w :
  ∃ w', callback es w = (Normal tt, w') ∧
    (∀ k, doc_elements (w_doc w') !! k
          = if decide (k ∈ marked es) then mark_visible <$> doc_elements (w_doc w) !! k
            else doc_elements (w_doc w) !! k) ∧
    doc_order (w_doc w') = doc_order (w_doc w) ∧
    readyState (w_doc w') = readyState (w_doc w) ∧
    doc_listeners (w_doc w') = doc_listeners (w_doc w) ∧
    doc_queries (w_doc w') = doc_queries (w_doc w) ∧
    api_targets (w_obs w') = filter (λ t, t ∉ marked es) (api_targets (w_obs w)).
Proof.
  eexists. split; [apply callback_spec|].
  rewrite callback_effect_doc, callback_effect_targets. cbn.
  split; [|done]. intros k. apply lookup_foldl_alter_idem, mark_visible_idem.
Qed.

Lemma start_unfold w :
  start w = if decide (readyState (w_doc w) = Loading)
            then (Normal tt, mkWorld (set_listeners (add_unique ("DOMContentLoaded", INIT)
                                                        (doc_listeners (w_doc w))) (w_doc w))
                                     (w_obs w))
            else init w.
Proof. unfold start, on_doc, js_bind. cbn. by case_decide. Qed.

(** C1: The callback returns normally. The target of every intersecting
    entry of the batch that is an element of the document now has
    [is-visible] in its class token set, its other tokens and
    attributes kept; every other element is unchanged, as are the tree
    order, the ready state, the listeners and the query log. On the
    observer, exactly the targets of intersecting entries are
    unregistered. Non-intersecting entries change nothing. *)
Theorem callback_correct es w :
  ∃ w', callback es w = (Normal tt, w') ∧
    (∀ k e, doc_elements (w_doc w) !! k = Some e → k ∈ marked es →
       doc_elements (w_doc w') !! k = Some (mark_visible e) ∧
       IS_VISIBLE ∈ class_tokens (mark_visible e) ∧
       (∀ t, t ∈ class_tokens e → t ∈ class_tokens (mark_visible e)) ∧
       (∀ n, n ≠ "class" → get_attribute (mark_visible e) n = get_attribute e n)) ∧
    (∀ k, k ∉ marked es → doc_elements (w_doc w') !! k = doc_elements (w_doc w) !! k) ∧
    doc_order (w_doc w') = doc_order (w_doc w) ∧
    readyState (w_doc w') = readyState (w_doc w) ∧
    doc_listeners (w_doc w') = doc_listeners (w_doc w) ∧
    doc_queries (w_doc w') = doc_queries (w_doc w) ∧
    (∀ t, t ∈ api_targets (w_obs w') ↔ t ∈ api_targets (w_obs w) ∧ t ∉ marked es).
Proof.
  destruct (callback_outcome es w) as (w' & Hcb & Hel & Hrest).
  exists w'. split; [done|]. split; [|split].
  - intros k e He Hk. rewrite Hel, decide_True, He by done.
    split; [done|]. unfold mark_visible.
    rewrite class_tokens_add by apply IS_VISIBLE_valid_list. cbn [foldl].
    split; [apply elem_of_add_unique; by left|]. split.
    + intros t Ht. apply elem_of_add_unique. by right.
    + intros n Hn. by apply get_attribute_add_ne.
  - intros k Hk. by rewrite Hel, decide_False.
  - destruct Hrest as (? & ? & ? & ? & Ht). do 4 (split; [done|]).
    intros t. rewrite Ht, list_elem_of_filter. tauto.
Qed.

(** C12: Delivering the same batch a second time (property 4 of the
    spec) returns normally and changes neither the document, attribute
    lists included, nor the set of observed targets. *)
Theorem callback_idempotent es w :
  let w' := (callback es w).2 in
  let w'' := (callback es w').2 in
  (callback es w').1 = Normal tt ∧ w_doc w'' = w_doc w' ∧
  api_targets (w_obs w'') = api_targets (w_obs w').
Proof.
  cbn zeta. rewrite !callback_spec. cbn.
  rewrite !callback_effect_doc, !callback_effect_targets, set_elements_twice. cbn.
  split; [done|]. split.
  - f_equal. apply map_eq. intros k.
    rewrite !lookup_foldl_alter_idem by apply mark_visible_idem.
    case_decide; [|done]. destruct (doc_elements (w_doc w) !! k); simpl; [|done].
    by rewrite mark_visible_idem.
  - rewrite list_filter_filter. apply list_filter_iff. tauto.
Qed.

Lemma elem_of_marked_perm es es' t : es ≡ₚ es' → t ∈ marked es ↔ t ∈ marked es'.
Proof. intros Hp. unfold marked. by rewrite Hp. Qed.

(** C13: The order in which the observer lists the entries of a batch does not
    matter: a permuted batch has the same outcome, the same document and
    the same observed targets. *)
Theorem callback_permutation es es' w :
  es ≡ₚ es' →
  (callback es w).1 = (callback es' w).1 ∧
  w_doc (callback es w).2 = w_doc (callback es' w).2 ∧
  api_targets (w_obs (callback es w).2) = api_targets (w_obs (callback es' w).2).
Proof.
  intros Hp. rewrite !callback_spec. cbn.
  rewrite !callback_effect_doc, !callback_effect_targets. split; [done|]. split.
  - f_equal. apply map_eq. intros k.
    rewrite !lookup_foldl_alter_idem by apply mark_visible_idem.
    by rewrite (decide_ext _ _ _ _ (elem_of_marked_perm es es' k Hp)).
  - apply list_filter_iff. intros t. by rewrite (elem_of_marked_perm es es' t Hp).
Qed.

(** C2: [init] returns normally, changes the document only by running
    its two queries, and
    registers every element matching [[data-animate]] or
    [.svg-chart-wrap] exactly once (property 1 of the spec): the
    observed targets become the old ones followed by the new candidates
    in tree order, the [[data-animate]] ones first, without
    duplicates. *)
Theorem init_registers_candidates w :
  NoDup (api_targets (w_obs w)) →
  ∃ w', init w = (Normal tt, w') ∧ w_doc w' = init_doc (w_doc w) ∧
    api_targets (w_obs w')
    = foldl (λ acc x, add_unique x acc) (api_targets (w_obs w)) (candidates (w_doc w)) ∧
    NoDup (api_targets (w_obs w')) ∧
    (∀ t, t ∈ api_targets (w_obs w') ↔
          t ∈ api_targets (w_obs w) ∨
          (t ∈ doc_order (w_doc w) ∧
           (matches_id (AttrSelector "data-animate") (w_doc w) t = true ∨
            matches_id (ClassSelector "svg-chart-wrap") (w_doc w) t = true))).
Proof.
  intros Hnd. eexists. split; [apply init_effect|]. split; [done|].
  cbn [w_obs]. rewrite observe_all_targets.
  split; [done|]. split; [auto with webdb|].
  intros t. rewrite elem_of_foldl_add_unique. unfold candidates.
  rewrite elem_of_app, !elem_of_select_all. tauto.
Qed.

(** C3: Lines 30-34. While the document is loading, the script only adds
    [init] as a [DOMContentLoaded] listener: no query runs and the
    registry is untouched. Otherwise it runs [init] at once, which runs
    both queries and registers the candidates. Either way it returns
    normally. *)
Theorem start_correct w :
  (readyState (w_doc w) = Loading →
   start w = (Normal tt,
              mkWorld (set_listeners (add_unique ("DOMContentLoaded", INIT) (doc_listeners (w_doc w)))
                                     (w_doc w)) (w_obs w))) ∧
  (readyState (w_doc w) ≠ Loading →
   start w = (Normal tt, mkWorld (init_doc (w_doc w)) (observe_all (candidates (w_doc w)) (w_obs w)))).
Proof.
  split; intros Hl; rewrite start_unfold.
  - by rewrite decide_True.
  - rewrite decide_False by done. apply init_effect.
Qed.

End ScriptLemmas.

(** ** The script at the concrete observer *)

(** ** Lemmas: what each step does *)

Lemma new_observer_animations : new_observer animations_options = Normal script_observer.
Proof. vm_compute. reflexivity. Qed.

(** [start] on the script's fresh observer. *)
Lemma start_unfold_world d :
  (readyState d = Loading →
   start (mkWorld d script_observer)
   = (Normal tt, mkWorld (set_listeners (add_unique ("DOMContentLoaded", INIT) (doc_listeners d)) d)
                         script_observer)) ∧
  (readyState d ≠ Loading →
   start (mkWorld d script_observer)
   = (Normal tt, mkWorld (init_doc d) (observe_all (candidates d) script_observer))).
Proof.
  split; intros Hl; rewrite start_unfold; cbn [w_doc w_obs].
  - by rewrite decide_True.
  - rewrite decide_False by done. apply init_effect.
Qed.

Lemma observe_all_config l o :
  io_thresholds (observe_all l o) = io_thresholds o ∧ io_margin (observe_all l o) = io_margin o.
Proof.
  unfold observe_all. revert o. induction l as [|t l IH]; intros o; [done|]. cbn.
  rewrite (proj1 (IH _)), (proj2 (IH _)). unfold observe. by case_decide.
Qed.

(** C16: The script (lines 2-35) never throws, whatever the document:
    the constructor accepts the threshold 0.15 and the margin, and both
    selector strings parse. It leaves an observer with those options
    which, on a loading document, observes nothing yet and has run no
    query, and on a parsed document observes exactly the candidates. *)
Theorem run_script_succeeds d :
  ∃ w, run_script d = (Normal tt, w_doc w, Some w) ∧
    io_thresholds (w_obs w) = [15 # 100]%Q ∧ io_margin (w_obs w) = script_margin ∧
    (readyState d = Loading → io_targets (w_obs w) = [] ∧ doc_queries (w_doc w) = doc_queries d) ∧
    (readyState d ≠ Loading → ∀ t, t ∈ io_targets (w_obs w) ↔ t ∈ candidates d).
Proof.
  unfold run_script. rewrite new_observer_animations.
  destruct (decide (readyState d = Loading)) as [Hl|Hl].
  - rewrite (proj1 (start_unfold_world d) Hl). eexists. split; [reflexivity|]. cbn.
    do 2 (split; [done|]). split; [done|]. by intros Hn.
  - rewrite (proj2 (start_unfold_world d) Hl). eexists. split; [reflexivity|]. cbn [w_obs w_doc].
    destruct (observe_all_config (candidates d) script_observer) as [Ht Hm].
    rewrite Ht, Hm. do 2 (split; [done|]). split; [done|]. intros _ t.
    change (t ∈ api_targets (observe_all (candidates d) script_observer) ↔ t ∈ candidates d).
    rewrite observe_all_targets, elem_of_foldl_add_unique. cbn. set_solver.
Qed.


Lemma run_script_config d r d' w :
  run_script d = (r, d', Some w) →
  io_margin (w_obs w) = script_margin ∧ io_thresholds (w_obs w) = [15 # 100]%Q.
Proof.
  unfold run_script. rewrite new_observer_animations.
  destruct (decide (readyState d = Loading)) as [Hl|Hl].
  - rewrite (proj1 (start_unfold_world d) Hl). by intros [= _ _ <-].
  - rewrite (proj2 (start_unfold_world d) Hl). intros [= _ _ <-]. cbn [w_obs].
    destruct (observe_all_config (candidates d) script_observer) as [-> ->]. done.
Qed.

(** C14: The margin of line 14 as a bound: for a target box that overlaps the
    viewport horizontally and does not lie above it, the script's observer
    reports [isIntersecting] exactly when the box's top edge is at most 40
    pixels above the viewport's bottom edge or higher. *)
Theorem isIntersecting_bottom_margin d r d' w lay t tr :
  run_script d = (r, d', Some w) → bounding_box lay t = Some tr →
  rect_wf (viewport lay) → rect_wf tr → (40 ≤ rh (viewport lay))%Z →
  (r_left tr ≤ r_right (viewport lay))%Z → (r_left (viewport lay) ≤ r_right tr)%Z →
  (r_top (viewport lay) ≤ r_bottom tr)%Z →
  (compute_observation (w_obs w) lay t).1.2 = true ↔ (r_top tr ≤ r_bottom (viewport lay) - 40)%Z.
Proof.
  intros Hrun Hbox Hvp Htr Hh Hl1 Hl2 Ht.
  rewrite (compute_observation_touch _ _ _ _ Hbox), (proj1 (run_script_config d r d' w Hrun)).
  apply (rects_touch_bottom_inset tr (viewport lay) 40); lia || done.
Qed.
