(* ===== verification/Page.v ===== *)
(** * The page lifecycle

    The environment the script runs in, as a step relation on [Page]: the
    parser appends elements while the document is loading; the script runs
    once, at any point; the end of parsing sets [readyState] to
    ["interactive"] and fires [DOMContentLoaded] at the document's
    listeners (an exception in a listener is reported and does not stop
    the dispatch); the load sets it to ["complete"]; a rendering update
    runs the observer's update steps for some layout; the notification
    task hands the queued entries to the callback. Steps interleave freely;
    [step_in ok] only allows the rendering updates [ok] admits, [step]
    allows all. Invariants are proved by induction over reachable pages. *)

From stdpp Require Import base list gmap sets strings relations.
From Stdlib Require Import ZArith QArith.
From S2P Require Import Prelude Dom Geometry RootMargin IntersectionObserver Animations.

Local Open Scope js_scope.
Local Open Scope nat_scope.

Record Page := mkPage {
  pg_doc : Document;
  pg_obs : option Observer;   (** the script's observer, once it ran *)
  pg_script_ran : bool
}.

(** The parser appends an element to the document. *)
Definition append_element (id : nat) (e : Element) (d : Document) : Document :=
  mkDocument (<[id := e]> (doc_elements d)) (doc_order d ++ [id]) (readyState d)
             (doc_listeners d) (doc_queries d).

(** "Report the exception": the completion of a listener is dropped. *)
Definition report {S} (m : JS S unit) : JS S unit := λ s, (Normal tt, (m s).2).

(** The callback a listener names; only the script's [init] exists. *)
Definition run_listener (l : Listener) : JS (World Observer) unit :=
  if decide (l = ("DOMContentLoaded", INIT)) then report init else js_ret tt.

(** Firing [DOMContentLoaded]: every listener of that type, in order. *)
Definition fire_DOMContentLoaded : JS (World Observer) unit :=
  w <- js_get ;;
  forEach run_listener (filter (λ l, l.1 = "DOMContentLoaded") (doc_listeners (w_doc w))).

(** The end of parsing: [readyState] becomes ["interactive"], then
    [DOMContentLoaded] fires (with no observer there is no listener to
    run). *)
Definition finish_parsing (p : Page) : Page :=
  let d := set_ready_state Interactive (pg_doc p) in
  match pg_obs p with
  | None => mkPage d None (pg_script_ran p)
  | Some o => let w := (fire_DOMContentLoaded (mkWorld d o)).2 in
              mkPage (w_doc w) (Some (w_obs w)) (pg_script_ran p)
  end.

(** The notification task: the queued entries go to the callback. *)
Definition notify (p : Page) : Page :=
  match pg_obs p with
  | None => p
  | Some o =>
      let '(es, o') := take_records o in
      let w := (report (callback es) (mkWorld (pg_doc p) o')).2 in
      mkPage (w_doc w) (Some (w_obs w)) (pg_script_ran p)
  end.

Definition render (lay : Layout) (p : Page) : Page :=
  mkPage (pg_doc p) (update_observations lay <$> pg_obs p) (pg_script_ran p).

Definition script_step (p : Page) : Page :=
  let '(_, d', ow) := run_script (pg_doc p) in
  mkPage d' (w_obs <$> ow) true.

(** The steps of the page, for an environment whose rendering updates
    satisfy [ok]: [ok p lay] says the page [p] may be rendered with the
    layout [lay]. *)
Inductive step_in (ok : Page → Layout → Prop) : Page → Page → Prop :=
  | step_parse p id e :
      readyState (pg_doc p) = Loading → doc_elements (pg_doc p) !! id = None →
      step_in ok p (mkPage (append_element id e (pg_doc p)) (pg_obs p) (pg_script_ran p))
  | step_script p :
      pg_script_ran p = false → step_in ok p (script_step p)
  | step_finish_parsing p :
      readyState (pg_doc p) = Loading → step_in ok p (finish_parsing p)
  | step_load p :
      readyState (pg_doc p) = Interactive →
      step_in ok p (mkPage (set_ready_state Complete (pg_doc p)) (pg_obs p) (pg_script_ran p))
  | step_render p lay : ok p lay → step_in ok p (render lay p)
  | step_notify p o :
      pg_obs p = Some o → io_queue o ≠ [] → step_in ok p (notify p).
Arguments step_parse {ok}. Arguments step_script {ok}. Arguments step_finish_parsing {ok}.
Arguments step_load {ok}. Arguments step_render {ok}. Arguments step_notify {ok}.

(** The steps of the page with any layout at each rendering update. *)
Definition step : Page → Page → Prop := step_in (λ _ _, True).

(** A page as the parser starts it: loading, with the elements parsed so
    far, no listener, no query, and the script not yet run. *)
Definition initial_page (p : Page) : Prop :=
  readyState (pg_doc p) = Loading ∧ doc_listeners (pg_doc p) = [] ∧
  doc_queries (pg_doc p) = [] ∧ pg_obs p = None ∧ pg_script_ran p = false ∧
  NoDup (doc_order (pg_doc p)) ∧
  (∀ id, id ∈ doc_order (pg_doc p) ↔ is_Some (doc_elements (pg_doc p) !! id)).

Definition reachable (p : Page) : Prop := ∃ p0, initial_page p0 ∧ rtc step p0 p.

(** ** The invariant of reachable pages *)

Definition well_formed_doc (d : Document) : Prop :=
  NoDup (doc_order d) ∧ ∀ id, id ∈ doc_order d ↔ is_Some (doc_elements d !! id).

(** An element [init] registers: it matches [[data-animate]] or
    [.svg-chart-wrap]. *)
Definition is_candidate (d : Document) (id : nat) : Prop :=
  id ∈ doc_order d ∧
  (matches_id (AttrSelector "data-animate") d id = true ∨
   matches_id (ClassSelector "svg-chart-wrap") d id = true).

Definition has_visible (d : Document) (id : nat) : Prop :=
  ∃ e, doc_elements d !! id = Some e ∧ IS_VISIBLE ∈ class_tokens e.

(** The observer's targets are distinct and its queue only holds entries
    for observed targets. *)
Definition observer_ok (o : Observer) : Prop :=
  NoDup (io_targets o) ∧ ∀ e, e ∈ io_queue o → entry_target e ∈ io_targets o.

(** Before the script runs: nothing registered, nothing queried. While the
    document loads after it ran: only the listener, no query, no target.
    Once the document is parsed: the two queries ran once, after parsing,
    and every candidate is observed or already has [is-visible]. *)
Definition page_inv (p : Page) : Prop :=
  well_formed_doc (pg_doc p) ∧
  match pg_obs p with
  | None => pg_script_ran p = false ∧ doc_listeners (pg_doc p) = [] ∧
            doc_queries (pg_doc p) = []
  | Some o =>
      pg_script_ran p = true ∧ observer_ok o ∧
      if decide (readyState (pg_doc p) = Loading) then
        doc_listeners (pg_doc p) = [("DOMContentLoaded", INIT)] ∧
        doc_queries (pg_doc p) = [] ∧ io_targets o = [] ∧ io_queue o = []
      else
        (∃ rs, rs ≠ Loading ∧ doc_queries (pg_doc p) = [(SEL_ANIMATE, rs); (SEL_CHART, rs)]) ∧
        ∀ id, is_candidate (pg_doc p) id → id ∈ io_targets o ∨ has_visible (pg_doc p) id
  end.


(** [d'] is [d] with the elements [ks] marked visible. *)
Definition marked_doc (ks : list nat) (d d' : Document) : Prop :=
  doc_order d' = doc_order d ∧
  ∀ k, doc_elements d' !! k
       = if decide (k ∈ ks) then mark_visible <$> doc_elements d !! k else doc_elements d !! k.

(** Decision procedures for the invariant's predicates, used to check the
    scenarios by evaluation. *)
Definition has_visible_b (d : Document) (id : nat) : bool :=
  match doc_elements d !! id with
  | Some e => bool_decide (IS_VISIBLE ∈ class_tokens e)
  | None => false
  end.

Definition is_candidate_b (d : Document) (id : nat) : bool :=
  bool_decide (id ∈ doc_order d) &&
  (matches_id (AttrSelector "data-animate") d id || matches_id (ClassSelector "svg-chart-wrap") d id).

(** The notification step applies: the observer has queued entries. *)
Definition can_notify (p : Page) : bool :=
  match pg_obs p with
  | Some o => negb (bool_decide (io_queue o = []))
  | None => false
  end.

(** ** Scenarios *)

(** Three [data-animate] sections, parsed before the script runs (spec,
    property 5). *)
Definition anim_el : Element := mkElement "section" [("data-animate", "")].
Definition scn_doc : Document :=
  mkDocument (<[1 := anim_el]> (<[2 := anim_el]> (<[3 := anim_el]> ∅))) [1; 2; 3] Loading [] [].
Definition scn_viewport : Rect := mkRect 0 0 1000 800.
Definition box_at (y : Z) : option Rect := Some (mkRect 0 y 100 100).

(** Nothing in view; then section 2 with 20 of its 100 pixel rows above
    the margin-reduced bottom edge (760); then section 2 with only 10. *)
Definition lay_offscreen : Layout := mkLayout scn_viewport (λ _, box_at 2000).
Definition lay_second : Layout :=
  mkLayout scn_viewport (λ id, if decide (id = 2) then box_at 740 else box_at 2000).
Definition lay_sliver : Layout :=
  mkLayout scn_viewport (λ id, if decide (id = 2) then box_at 750 else box_at 2000).

Definition scn_p0 : Page := mkPage scn_doc None false.
Definition scn_p1 : Page := script_step scn_p0.
Definition scn_p2 : Page := finish_parsing scn_p1.
Definition scn_p3 : Page := notify (render lay_offscreen scn_p2).
Definition scn_p4 : Page := notify (render lay_second scn_p3).

Definition obs_of (p : Page) : Observer := default script_observer (pg_obs p).


Lemma script_step_loading p :
  readyState (pg_doc p) = Loading →
  script_step p
  = mkPage (set_listeners (add_unique ("DOMContentLoaded", INIT) (doc_listeners (pg_doc p)))
                          (pg_doc p))
           (Some script_observer) true.
Proof.
  intros H. unfold script_step, run_script. rewrite new_observer_animations, start_unfold.
  by rewrite decide_True.
Qed.

Lemma script_step_parsed p :
  readyState (pg_doc p) ≠ Loading →
  script_step p
  = mkPage (init_doc (pg_doc p)) (Some (observe_all (candidates (pg_doc p)) script_observer)) true.
Proof.
  intros H. unfold script_step, run_script. rewrite new_observer_animations, start_unfold.
  rewrite decide_False by done. by rewrite init_effect.
Qed.


Lemma finish_parsing_listening p o :
  pg_obs p = Some o → doc_listeners (pg_doc p) = [("DOMContentLoaded", INIT)] →
  let d := set_ready_state Interactive (pg_doc p) in
  finish_parsing p = mkPage (init_doc d) (Some (observe_all (candidates d) o)) (pg_script_ran p).
Proof.
  intros Ho Hl. unfold finish_parsing. rewrite Ho. cbn zeta.
  unfold fire_DOMContentLoaded, js_bind, js_get. cbn [w_doc doc_listeners set_ready_state].
  rewrite Hl. rewrite filter_cons_True by reflexivity. rewrite filter_nil. cbn [forEach]. unfold run_listener. rewrite decide_True by done.
  unfold report, js_bind, js_ret. rewrite init_effect. reflexivity.
Qed.

Lemma observe_all_queue l o : io_queue (observe_all l o) = io_queue o.
Proof.
  unfold observe_all. revert o. induction l as [|t l IH]; intros o; [done|]. simpl.
  rewrite IH. apply observe_queue.
Qed.

Lemma callback_queue es (w : World Observer) :
  io_queue (w_obs (callback es w).2) = io_queue (w_obs w).
Proof.
  rewrite callback_spec. cbn. revert w. induction es as [|e es IH]; intros w; [done|].
  simpl. rewrite IH. unfold entry_effect. by destruct (entry_isIntersecting e).
Qed.

(** ** Lemmas: facts that depend only on elements and tree order *)

Lemma is_candidate_ext d d' id :
  doc_elements d = doc_elements d' → doc_order d = doc_order d' →
  is_candidate d id ↔ is_candidate d' id.
Proof. intros He Ho. unfold is_candidate, matches_id. by rewrite He, Ho. Qed.

Lemma has_visible_ext d d' id :
  doc_elements d = doc_elements d' → has_visible d id ↔ has_visible d' id.
Proof. intros He. unfold has_visible. by rewrite He. Qed.

Lemma well_formed_doc_same d d' :
  doc_elements d' = doc_elements d → doc_order d' = doc_order d →
  well_formed_doc d → well_formed_doc d'.
Proof. intros He Ho. unfold well_formed_doc. by rewrite He, Ho. Qed.

(** Marking an element visible keeps what the two selectors say of it. *)
Lemma matches_mark_visible sel e :
  sel = AttrSelector "data-animate" ∨ sel = ClassSelector "svg-chart-wrap" →
  matches sel (mark_visible e) = matches sel e.
Proof.
  intros [->| ->]; simpl; apply bool_decide_ext.
  - unfold mark_visible. by rewrite get_attribute_add_ne.
  - unfold mark_visible. rewrite class_tokens_add by apply IS_VISIBLE_valid_list. simpl.
    rewrite elem_of_add_unique. split; [intros [H|H]; [discriminate|done]|tauto].
Qed.

Lemma has_visible_mark_visible e :
  IS_VISIBLE ∈ class_tokens (mark_visible e).
Proof.
  unfold mark_visible. rewrite class_tokens_add by apply IS_VISIBLE_valid_list. simpl.
  apply elem_of_add_unique. by left.
Qed.

Lemma class_tokens_mark_visible_mono e t :
  t ∈ class_tokens e → t ∈ class_tokens (mark_visible e).
Proof.
  unfold mark_visible. rewrite class_tokens_add by apply IS_VISIBLE_valid_list. simpl.
  rewrite elem_of_add_unique. tauto.
Qed.

(** ** Lemmas: the callback's document *)


Lemma marked_doc_is_Some ks d d' k :
  marked_doc ks d d' → is_Some (doc_elements d' !! k) ↔ is_Some (doc_elements d !! k).
Proof.
  intros [_ Hk]. rewrite Hk. case_decide; [|done]. by rewrite fmap_is_Some.
Qed.

Lemma marked_doc_well_formed ks d d' :
  marked_doc ks d d' → well_formed_doc d → well_formed_doc d'.
Proof.
  intros Hm [Hnd Hdom]. pose proof Hm as [Ho _]. split; [by rewrite Ho|].
  intros id. rewrite Ho, Hdom. symmetry. by apply (marked_doc_is_Some ks).
Qed.

Lemma marked_doc_candidate ks d d' id :
  marked_doc ks d d' → is_candidate d' id ↔ is_candidate d id.
Proof.
  intros [Ho Hk]. unfold is_candidate, matches_id. rewrite Ho, Hk.
  case_decide; [|done]. destruct (doc_elements d !! id) as [e|]; [|done].
  change (mark_visible <$> Some e) with (Some (mark_visible e)). cbv beta iota.
  rewrite !matches_mark_visible by auto. done.
Qed.

Lemma marked_doc_has_visible ks d d' id :
  marked_doc ks d d' → has_visible d id → has_visible d' id.
Proof.
  intros [_ Hk] (e & He & Hv). unfold has_visible. rewrite Hk, He.
  case_decide; eexists; split; eauto using class_tokens_mark_visible_mono.
Qed.

Lemma marked_doc_marks ks d d' id :
  marked_doc ks d d' → id ∈ ks → is_Some (doc_elements d !! id) → has_visible d' id.
Proof.
  intros [_ Hk] Hid [e He]. unfold has_visible. rewrite Hk, decide_True, He by done.
  eexists. split; [done|]. apply has_visible_mark_visible.
Qed.

Lemma marked_doc_unmarked ks d d' id :
  marked_doc ks d d' → id ∉ ks → doc_elements d' !! id = doc_elements d !! id.
Proof. intros [_ Hk] Hid. by rewrite Hk, decide_False. Qed.

(** The notification step, spelled out through [callback_outcome]. *)
Lemma notify_spec p o :
  pg_obs p = Some o →
  ∃ d' o', notify p = mkPage d' (Some o') (pg_script_ran p) ∧
    marked_doc (marked (io_queue o)) (pg_doc p) d' ∧
    readyState d' = readyState (pg_doc p) ∧ doc_listeners d' = doc_listeners (pg_doc p) ∧
    doc_queries d' = doc_queries (pg_doc p) ∧
    io_targets o' = filter (λ t, t ∉ marked (io_queue o)) (io_targets o) ∧ io_queue o' = [].
Proof.
  intros Ho. unfold notify. rewrite Ho. cbn.
  set (w := mkWorld (pg_doc p) (mkObserver (io_thresholds o) (io_margin o) (io_regs o) [])).
  destruct (callback_outcome (io_queue o) w)
    as (w' & Hcb & Hel & Hord & Hrs & Hls & Hqs & Htg).
  unfold report. rewrite Hcb. exists (w_doc w'), (w_obs w'). split; [done|].
  split; [split; done|]. do 3 (split; [done|]). split; [done|].
  pose proof (callback_queue (io_queue o) w) as Hq. rewrite Hcb in Hq. exact Hq.
Qed.

(** ** Lemmas: [init] establishes the coverage part of the invariant *)

Lemma candidate_in_candidates d id : is_candidate d id → id ∈ candidates d.
Proof. intros [Hin Hm]. unfold candidates. rewrite elem_of_app, !elem_of_select_all. tauto. Qed.

Lemma init_covers d o id :
  is_candidate d id → id ∈ io_targets (observe_all (candidates d) o).
Proof.
  intros Hc. change (id ∈ api_targets (observe_all (candidates d) o)).
  rewrite observe_all_targets. apply elem_of_foldl_add_unique. right.
  by apply candidate_in_candidates.
Qed.

Lemma init_observer_ok d o : observer_ok o → observer_ok (observe_all (candidates d) o).
Proof.
  intros [Hnd Hq]. split.
  - change (NoDup (api_targets (observe_all (candidates d) o))).
    rewrite observe_all_targets. auto with webdb.
  - intros e. rewrite observe_all_queue. intros He.
    change (entry_target e ∈ api_targets (observe_all (candidates d) o)).
    rewrite observe_all_targets. apply elem_of_foldl_add_unique. left. by apply Hq.
Qed.

Lemma is_candidate_init_doc d id : is_candidate (init_doc d) id ↔ is_candidate d id.
Proof. by apply is_candidate_ext. Qed.

Lemma has_visible_init_doc d id : has_visible (init_doc d) id ↔ has_visible d id.
Proof. by apply has_visible_ext. Qed.

(** ** Lemmas: each step preserves the invariant *)

Lemma inv_parse p id e :
  page_inv p → readyState (pg_doc p) = Loading → doc_elements (pg_doc p) !! id = None →
  page_inv (mkPage (append_element id e (pg_doc p)) (pg_obs p) (pg_script_ran p)).
Proof.
  intros [[Hnd Hdom] Hobs] Hl Hid. split.
  - split; cbn.
    + apply NoDup_app. split; [done|]. split; [|apply NoDup_singleton].
      intros x Hx ->%list_elem_of_singleton. apply Hdom in Hx. rewrite Hid in Hx.
      by destruct Hx.
    + intros x. rewrite elem_of_app, list_elem_of_singleton, Hdom.
      destruct (decide (id = x)) as [->|Hx].
      * rewrite lookup_insert_eq. split; [intros _; by eexists|tauto].
      * rewrite lookup_insert_ne by done. split; [intros [H|H]; [done|congruence]|tauto].
  - cbn. destruct (pg_obs p) as [o|]; [|done]. rewrite Hl in Hobs |- *. done.
Qed.

Lemma inv_script p : page_inv p → pg_script_ran p = false → page_inv (script_step p).
Proof.
  intros [Hwf Hobs] Hran. destruct (pg_obs p) as [o|]; [by destruct Hobs as [Hr _]; congruence|].
  destruct Hobs as (_ & Hls & Hqs).
  destruct (decide (readyState (pg_doc p) = Loading)) as [Hl|Hl].
  - rewrite script_step_loading by done. split; [done|]. cbn [pg_doc pg_obs pg_script_ran].
    rewrite decide_True by done. rewrite Hls. split; [done|].
    split; [split; [constructor|set_solver]|]. done.
  - rewrite script_step_parsed by done. split; [by apply (well_formed_doc_same (pg_doc p))|]. cbn [pg_doc pg_obs pg_script_ran].
    rewrite decide_False by done. split; [done|].
    split; [apply init_observer_ok; split; [constructor|set_solver]|]. split.
    + exists (readyState (pg_doc p)). split; [done|]. cbn. by rewrite Hqs.
    + intros id Hc. left. apply init_covers. by apply is_candidate_init_doc in Hc.
Qed.

Lemma inv_finish p : page_inv p → readyState (pg_doc p) = Loading → page_inv (finish_parsing p).
Proof.
  intros [Hwf Hobs] Hl. destruct (pg_obs p) as [o|] eqn:Ho.
  - destruct Hobs as (Hran & Hok & Hlo). rewrite decide_True in Hlo by done.
    destruct Hlo as (Hls & Hqs & Htg & Hq).
    rewrite (finish_parsing_listening p o) by done. split; [by apply (well_formed_doc_same (pg_doc p))|].
    cbn [pg_doc pg_obs pg_script_ran]. rewrite decide_False by discriminate. split; [done|].
    split; [by apply init_observer_ok|]. split.
    + exists Interactive. split; [discriminate|]. cbn. by rewrite Hqs.
    + intros id Hc. left. apply init_covers. by apply is_candidate_init_doc in Hc.
  - unfold finish_parsing. rewrite Ho. split; [by apply (well_formed_doc_same (pg_doc p))|]. done.
Qed.

Lemma inv_load p :
  page_inv p → readyState (pg_doc p) = Interactive →
  page_inv (mkPage (set_ready_state Complete (pg_doc p)) (pg_obs p) (pg_script_ran p)).
Proof.
  intros [Hwf Hobs] Hi. split; [by apply (well_formed_doc_same (pg_doc p))|]. cbn.
  destruct (pg_obs p) as [o|]; [|done].
  destruct Hobs as (Hran & Hok & Hlo). rewrite Hi, decide_False in Hlo by discriminate.
  rewrite decide_False by discriminate. destruct Hlo as [Hqs Hcov].
  do 3 (split; [done|]). intros id Hc.
  destruct (Hcov id) as [Ht|Hv]; [by eapply is_candidate_ext; [..|apply Hc]|by left|].
  right. by eapply has_visible_ext; [|apply Hv].
Qed.

Lemma update_observer_ok lay o : observer_ok o → observer_ok (update_observations lay o).
Proof.
  intros [Hnd Hq]. split; rewrite ?update_observations_targets; [done|].
  intros e He. apply update_observations_queue in He as [He|He]; [by apply Hq|done].
Qed.

Lemma update_no_targets lay o :
  io_targets o = [] → io_queue o = [] → io_queue (update_observations lay o) = [].
Proof.
  intros Ht Hq. unfold io_targets in Ht. apply map_eq_nil in Ht.
  unfold update_observations. cbn. by rewrite Ht, Hq.
Qed.

Lemma inv_render p lay : page_inv p → page_inv (render lay p).
Proof.
  intros [Hwf Hobs]. split; [done|]. unfold render. cbn [pg_doc pg_obs pg_script_ran].
  destruct (pg_obs p) as [o|]; [|done]. cbn [fmap option_fmap option_map].
  destruct Hobs as (Hran & Hok & Hlo). split; [done|]. split; [by apply update_observer_ok|].
  case_decide.
  - destruct Hlo as (Hls & Hqs & Htg & Hq). do 2 (split; [done|]).
    rewrite update_observations_targets. split; [done|]. by apply update_no_targets.
  - destruct Hlo as [Hqs Hcov]. split; [done|]. intros id Hc.
    rewrite update_observations_targets. by apply Hcov.
Qed.

Lemma inv_notify p o : page_inv p → pg_obs p = Some o → io_queue o ≠ [] → page_inv (notify p).
Proof.
  intros [Hwf Hobs] Ho Hne. rewrite Ho in Hobs. destruct Hobs as (Hran & [Hnd Hqt] & Hlo).
  destruct (notify_spec p o Ho) as (d' & o' & -> & Hm & Hrs & Hls & Hqs & Htg & Hq).
  split; [by eapply marked_doc_well_formed|]. cbn [pg_doc pg_obs pg_script_ran].
  split; [done|]. split.
  { split; [rewrite Htg; by apply NoDup_filter|]. rewrite Hq. set_solver. }
  rewrite Hrs. case_decide; [destruct Hlo as (_ & _ & _ & Hq0); congruence|].
  destruct Hlo as [Hqs0 Hcov]. split; [by rewrite Hqs|].
  intros id Hc. apply (marked_doc_candidate _ _ _ _ Hm) in Hc.
  destruct (Hcov id Hc) as [Ht|Hv].
  - destruct (decide (id ∈ marked (io_queue o))) as [Hk|Hk].
    + right. eapply marked_doc_marks; [done..|]. apply Hwf, Hc.
    + left. rewrite Htg. apply list_elem_of_filter. done.
  - right. by eapply marked_doc_has_visible.
Qed.

Lemma inv_step {ok} p p' : page_inv p → step_in ok p p' → page_inv p'.
Proof.
  intros Hinv Hs. destruct Hs.
  - by apply inv_parse.
  - by apply inv_script.
  - by apply inv_finish.
  - by apply inv_load.
  - by apply inv_render.
  - by eapply inv_notify.
Qed.

Lemma inv_initial p : initial_page p → page_inv p.
Proof.
  intros (Hl & Hls & Hqs & Ho & Hran & Hnd & Hdom). split; [by split|]. by rewrite Ho.
Qed.

Lemma reachable_inv p : reachable p → page_inv p.
Proof.
  intros (p0 & Hinit & Hsteps). apply inv_initial in Hinit.
  induction Hsteps; eauto using inv_step.
Qed.

(** A notification delivering an intersecting entry for an element marks
    and unobserves it. *)
Lemma notify_marks_queued p o t q :
  pg_obs p = Some o → mkEntry t true q ∈ io_queue o → is_Some (doc_elements (pg_doc p) !! t) →
  has_visible (pg_doc (notify p)) t ∧ ∃ o', pg_obs (notify p) = Some o' ∧ t ∉ io_targets o'.
Proof.
  intros Ho Hq Hel.
  assert (t ∈ marked (io_queue o)) as Hk.
  { unfold marked. apply list_elem_of_fmap. exists (mkEntry t true q).
    split; [done|]. by apply list_elem_of_filter. }
  destruct (notify_spec p o Ho) as (d' & o' & -> & Hm & _ & _ & _ & Htg & _).
  split; [by eapply marked_doc_marks|].
  exists o'. split; [done|]. rewrite Htg, list_elem_of_filter. tauto.
Qed.

(** ** Lifecycle theorems *)

(** C10: The two queries of [init] never run while the document is
    loading, and once the script has run on a parsed document each has run
    exactly once, [[data-animate]] first (property 6 of the spec). *)
Theorem queries_after_parsing p :
  reachable p →
  Forall (λ q, q.2 ≠ Loading) (doc_queries (pg_doc p)) ∧
  (readyState (pg_doc p) = Loading → doc_queries (pg_doc p) = []) ∧
  (pg_script_ran p = true → readyState (pg_doc p) ≠ Loading →
   map fst (doc_queries (pg_doc p)) = [SEL_ANIMATE; SEL_CHART]).
Proof.
  intros Hr. destruct (reachable_inv p Hr) as [_ Hobs].
  destruct (pg_obs p) as [o|]; [|destruct Hobs as (Hran & _ & Hqs); rewrite Hqs;
                                 split; [constructor|split; [done|congruence]]].
  destruct Hobs as (_ & _ & Hlo). case_decide as Hl.
  - destruct Hlo as (_ & Hqs & _). rewrite Hqs. split; [constructor|]. split; [done|congruence].
  - destruct Hlo as [(rs & Hrs & Hqs) _]. rewrite Hqs.
    split; [repeat constructor; done|]. split; [congruence|done].
Qed.

(** C8: Once the document is parsed, every element marked
    [data-animate] or of class [svg-chart-wrap] is either observed or
    already has the class [is-visible]: no candidate is lost, whatever the
    interleaving of parsing, script, rendering and notifications. *)
Theorem candidates_observed_or_visible p o id :
  reachable p → pg_obs p = Some o → readyState (pg_doc p) ≠ Loading →
  is_candidate (pg_doc p) id → id ∈ io_targets o ∨ has_visible (pg_doc p) id.
Proof.
  intros Hr Ho Hl Hc. destruct (reachable_inv p Hr) as [_ Hobs]. rewrite Ho in Hobs.
  destruct Hobs as (_ & _ & Hlo). rewrite decide_False in Hlo by done.
  by apply Hlo.
Qed.

Lemma frozen_step p p' o id :
  page_inv p → pg_obs p = Some o → readyState (pg_doc p) ≠ Loading →
  id ∉ io_targets o → step p p' →
  doc_elements (pg_doc p') !! id = doc_elements (pg_doc p) !! id ∧
  readyState (pg_doc p') ≠ Loading ∧ ∃ o', pg_obs p' = Some o' ∧ id ∉ io_targets o'.
Proof.
  intros [_ Hobs] Ho Hl Hid Hs. rewrite Ho in Hobs. destruct Hobs as (Hran & [_ Hqt] & _).
  destruct Hs as [p0 id' e' Hl' _|p0 Hran'|p0 Hl'|p0 Hi|p0 lay _|p0 o0 Ho0 Hne].
  - contradiction.
  - congruence.
  - contradiction.
  - split; [done|]. split; [discriminate|]. by exists o.
  - split; [done|]. split; [done|]. exists (update_observations lay o).
    unfold render. rewrite Ho. split; [done|]. by rewrite update_observations_targets.
  - rewrite Ho in Ho0. injection Ho0 as <-.
    destruct (notify_spec p0 o Ho) as (d' & o' & -> & Hm & Hrs & _ & _ & Htg & _).
    assert (id ∉ marked (io_queue o)) as Hk.
    { unfold marked. intros (e & -> & He)%list_elem_of_fmap.
      apply list_elem_of_filter in He as [_ He]. by apply Hid, Hqt. }
    split; [by eapply marked_doc_unmarked|]. split; [cbn [pg_doc]; by rewrite Hrs|].
    exists o'. split; [done|]. rewrite Htg, list_elem_of_filter. tauto.
Qed.

(** An element that is no longer observed once the document is parsed
    (in particular one the callback marked and unobserved) is never
    touched again and never observed again, whatever happens next:
    [is-visible] is added at most once per element (property 2 of the
    spec). *)
Lemma unobserved_element_frozen p p' o id :
  reachable p → pg_obs p = Some o → readyState (pg_doc p) ≠ Loading →
  id ∉ io_targets o → rtc step p p' →
  doc_elements (pg_doc p') !! id = doc_elements (pg_doc p) !! id ∧
  ∃ o', pg_obs p' = Some o' ∧ id ∉ io_targets o'.
Proof.
  intros Hr Ho Hl Hid Hsteps. pose proof (reachable_inv p Hr) as Hinv. clear Hr.
  revert o Ho Hl Hid Hinv. induction Hsteps as [p|p p1 p' Hs Hsteps IH];
    intros o Ho Hl Hid Hinv; [split; [done|by exists o]|].
  destruct (frozen_step p p1 o id Hinv Ho Hl Hid Hs) as (He1 & Hl1 & o1 & Ho1 & Hid1).
  destruct (IH o1 Ho1 Hl1 Hid1 (inv_step p p1 Hinv Hs)) as [He Hrest].
  split; [congruence|done].
Qed.


(** ** Scenario lemmas *)

Lemma has_visible_b_spec d id : has_visible_b d id = true ↔ has_visible d id.
Proof.
  unfold has_visible_b, has_visible. destruct (doc_elements d !! id) as [e|].
  - rewrite bool_decide_eq_true. split; [by exists e|]. by intros (e' & [= <-] & H).
  - split; [done|]. by intros (e' & ? & _).
Qed.

Lemma is_candidate_b_spec d id : is_candidate_b d id = true → is_candidate d id.
Proof.
  unfold is_candidate_b, is_candidate. intros [H1 H2]%andb_true_iff.
  apply bool_decide_eq_true in H1. split; [done|]. by apply orb_true_iff.
Qed.

Lemma can_notify_step {ok} p : can_notify p = true → step_in ok p (notify p).
Proof.
  unfold can_notify. destruct (pg_obs p) as [o|] eqn:Ho; [|discriminate].
  intros H%negb_true_iff%bool_decide_eq_false. by eapply step_notify.
Qed.

Lemma render_notify_steps p lay :
  can_notify (render lay p) = true → rtc step p (notify (render lay p)).
Proof.
  intros H. eapply rtc_l; [by apply step_render|]. apply rtc_once, can_notify_step, H.
Qed.

Lemma scn_initial : initial_page scn_p0.
Proof.
  repeat split; try reflexivity.
  - vm_compute. repeat constructor; set_solver.
  - intros Hin. apply list_elem_of_In in Hin. vm_compute in Hin.
    destruct Hin as [<-|[<-|[<-|[]]]]; vm_compute; by eexists.
  - intros [e He]. unfold scn_p0, scn_doc in *. cbn [pg_doc doc_elements doc_order] in *.
    rewrite !lookup_insert_Some, lookup_empty in He.
    apply list_elem_of_In. simpl. naive_solver.
Qed.

Lemma scn_reach_p3 : rtc step scn_p0 scn_p3.
Proof.
  eapply rtc_l; [by apply step_script|].
  eapply rtc_l; [by apply step_finish_parsing|].
  apply render_notify_steps. vm_compute. reflexivity.
Qed.

Lemma scn_reachable_p3 : reachable scn_p3.
Proof. exists scn_p0. split; [apply scn_initial|apply scn_reach_p3]. Qed.

Lemma scn_reachable_p4 : reachable scn_p4.
Proof.
  exists scn_p0. split; [apply scn_initial|].
  eapply rtc_trans; [apply scn_reach_p3|].
  apply render_notify_steps. vm_compute. reflexivity.
Qed.

(** ** Witnesses *)

Lemma queries_after_parsing_witness :
  Forall (λ q, q.2 ≠ Loading) (doc_queries (pg_doc scn_p4)) ∧
  (readyState (pg_doc scn_p4) = Loading → doc_queries (pg_doc scn_p4) = []) ∧
  (pg_script_ran scn_p4 = true → readyState (pg_doc scn_p4) ≠ Loading →
   map fst (doc_queries (pg_doc scn_p4)) = [SEL_ANIMATE; SEL_CHART]).
Proof. apply queries_after_parsing. exact scn_reachable_p4. Defined.

Lemma candidates_observed_or_visible_witness :
  1 ∈ io_targets (obs_of scn_p4) ∨ has_visible (pg_doc scn_p4) 1.
Proof.
  apply (candidates_observed_or_visible scn_p4).
  - exact scn_reachable_p4.
  - vm_compute. reflexivity.
  - vm_compute. discriminate.
  - apply is_candidate_b_spec. vm_compute. reflexivity.
Defined.


Lemma init_registers_candidates_witness :
  let w := mkWorld (set_ready_state Interactive scn_doc) script_observer in
  ∃ w', init w = (Normal tt, w') ∧ w_doc w' = init_doc (w_doc w) ∧
    api_targets (w_obs w')
    = foldl (λ acc x, add_unique x acc) (api_targets (w_obs w)) (candidates (w_doc w)) ∧
    NoDup (api_targets (w_obs w')) ∧
    (∀ t, t ∈ api_targets (w_obs w') ↔
          t ∈ api_targets (w_obs w) ∨
          (t ∈ doc_order (w_doc w) ∧
           (matches_id (AttrSelector "data-animate") (w_doc w) t = true ∨
            matches_id (ClassSelector "svg-chart-wrap") (w_doc w) t = true))).
Proof. apply init_registers_candidates. vm_compute. apply NoDup_nil_2. Defined.



Lemma run_script_succeeds_witness :
  ∃ w, run_script scn_doc = (Normal tt, w_doc w, Some w) ∧
    io_thresholds (w_obs w) = [15 # 100]%Q ∧ io_margin (w_obs w) = script_margin ∧
    (readyState scn_doc = Loading → io_targets (w_obs w) = [] ∧ doc_queries (w_doc w) = doc_queries scn_doc) ∧
    (readyState scn_doc ≠ Loading → ∀ t, t ∈ io_targets (w_obs w) ↔ t ∈ candidates scn_doc).
Proof. apply run_script_succeeds. Defined.

Lemma start_correct_witness :
  let w := mkWorld scn_doc script_observer in
  (readyState (w_doc w) = Loading →
   start w = (Normal tt,
              mkWorld (set_listeners (add_unique ("DOMContentLoaded", INIT) (doc_listeners (w_doc w)))
                                     (w_doc w)) (w_obs w))) ∧
  (readyState (w_doc w) ≠ Loading →
   start w = (Normal tt, mkWorld (init_doc (w_doc w)) (observe_all (candidates (w_doc w)) (w_obs w)))).
Proof. apply start_correct. Defined.

(** A batch for the witnesses: section 2 intersecting, section 3 not. *)
Lemma callback_correct_witness :
  let w0 := mkWorld scn_doc (observe_all [1; 2; 3] script_observer) in
  let es := [mkEntry 2 true 1; mkEntry 3 false 0] in
  ∃ w', callback es w0 = (Normal tt, w') ∧
    doc_elements (w_doc w') !! 2 = Some (mark_visible anim_el) ∧
    doc_elements (w_doc w') !! 3 = Some anim_el ∧
    (2 ∉ io_targets (w_obs w')) ∧ 3 ∈ io_targets (w_obs w').
Proof.
  cbn zeta.
  destruct (callback_correct [mkEntry 2 true 1; mkEntry 3 false 0]
              (mkWorld scn_doc (observe_all [1; 2; 3] script_observer)))
    as (w' & Hcb & Hm & Hu & _ & _ & _ & _ & Ht).
  exists w'. split; [exact Hcb|]. split.
  { apply (Hm 2 anim_el); [vm_compute; reflexivity|apply list_elem_of_In; simpl; auto]. }
  split.
  { rewrite Hu; [vm_compute; reflexivity|]. intros Hin. apply list_elem_of_In in Hin.
    simpl in Hin. lia. }
  change (io_targets (w_obs w')) with (api_targets (w_obs w')). split.
  - rewrite Ht. intros [_ Hn]. apply Hn. apply list_elem_of_In. simpl. auto.
  - rewrite Ht. split.
    + apply list_elem_of_In. vm_compute. auto.
    + intros Hin. apply list_elem_of_In in Hin. simpl in Hin. lia.
Defined.

Lemma callback_idempotent_witness :
  let w0 := mkWorld scn_doc (observe_all [1; 2; 3] script_observer) in
  let es := [mkEntry 2 true 1; mkEntry 3 false 0] in
  let w' := (callback es w0).2 in
  let w'' := (callback es w').2 in
  (callback es w').1 = Normal tt ∧ w_doc w'' = w_doc w' ∧
  api_targets (w_obs w'') = api_targets (w_obs w').
Proof. exact (callback_idempotent [mkEntry 2 true 1; mkEntry 3 false 0]
                (mkWorld scn_doc (observe_all [1; 2; 3] script_observer))). Defined.

(** The script on the loading document of the scenario: [init] is
    deferred, the observer is fresh. *)
Lemma run_script_scn_doc :
  run_script scn_doc
  = (Normal tt, set_listeners [("DOMContentLoaded", INIT)] scn_doc,
     Some (mkWorld (set_listeners [("DOMContentLoaded", INIT)] scn_doc) script_observer)).
Proof. vm_compute. reflexivity. Qed.

Lemma callback_permutation_witness :
  let w0 := mkWorld scn_doc (observe_all [1; 2; 3] script_observer) in
  let es := [mkEntry 2 true 1; mkEntry 3 false 0] in
  let es' := [mkEntry 3 false 0; mkEntry 2 true 1] in
  (callback es w0).1 = (callback es' w0).1 ∧
  w_doc (callback es w0).2 = w_doc (callback es' w0).2 ∧
  api_targets (w_obs (callback es w0).2) = api_targets (w_obs (callback es' w0).2).
Proof. apply callback_permutation. constructor. Defined.

Lemma isIntersecting_bottom_margin_witness :
  let w := mkWorld (set_listeners [("DOMContentLoaded", INIT)] scn_doc) script_observer in
  (compute_observation (w_obs w) lay_sliver 2).1.2 = true ↔
  (r_top (mkRect 0 750 100 100) ≤ r_bottom (viewport lay_sliver) - 40)%Z.
Proof.
  apply (isIntersecting_bottom_margin scn_doc (Normal tt) (set_listeners [("DOMContentLoaded", INIT)] scn_doc)).
  - exact run_script_scn_doc.
  - vm_compute. reflexivity.
  - unfold rect_wf. simpl. lia.
  - unfold rect_wf. simpl. lia.
  - simpl. lia.
  - unfold r_left, r_right. simpl. lia.
  - unfold r_left, r_right. simpl. lia.
  - unfold r_top, r_bottom. simpl. lia.
Defined.
