(* ===== verification/Visibility.v ===== *)
(** * When an element gets [is-visible]

    Properties of the page lifecycle of [Page.v] that say when the script
    marks an element.
    - An observed element whose box shows at least 15 per cent of itself
      inside the margin-reduced viewport at a rendering update is marked
      and unobserved by the notification that follows
      ([threshold_reached_marked]).
    - Any contact is enough, whatever the ratio
      ([touching_marked_any_ratio]).
    - Once marked, an element is never changed or observed again
      ([marked_element_frozen]).
    - An element whose box never touches the root bounds is never changed
      by the script and stays registered ([never_touching_never_marked]).
      The environment of that theorem is [step_in (avoids t)]: the page
      steps whose rendering updates keep [t]'s box away from the root
      bounds.
    - The first frame after a late run of the script marks exactly the
      candidates in view ([first_frame_after_script]).

    They rest on a second invariant of reachable pages, [live_inv]:
    - the observer keeps the script's options;
    - every registration whose last update found its target intersecting
      has an intersecting entry for it in the queue, and the notification
      that delivers the entry unobserves the target;
    - every target is an element of the document. *)

From stdpp Require Import base list gmap sets strings relations.
From Stdlib Require Import ZArith QArith.
From S2P Require Import Prelude Dom Geometry RootMargin IntersectionObserver Animations Page.

Local Open Scope nat_scope.

(** ** Definitions *)

(** The observer has the options the script passed. *)
Definition observer_config (o : Observer) : Prop :=
  io_margin o = script_margin ∧ io_thresholds o = [15 # 100]%Q.

(** A registration whose last update found its target intersecting has an
    intersecting entry for that target waiting in the queue. *)
Definition observer_pending (o : Observer) : Prop :=
  ∀ r, r ∈ io_regs o → reg_prev_isect r = true →
       ∃ q, mkEntry (reg_target r) true q ∈ io_queue o.

Definition targets_in_doc (d : Document) (o : Observer) : Prop :=
  ∀ t, t ∈ io_targets o → is_Some (doc_elements d !! t).

Definition live_inv (p : Page) : Prop :=
  ∀ o, pg_obs p = Some o →
       observer_config o ∧ observer_pending o ∧ targets_in_doc (pg_doc p) o.

(** Nothing the observer holds says that target [t] intersects: no queued
    entry and no registration. *)
Definition quiet_obs (t : nat) (o : Observer) : Prop :=
  (∀ e, e ∈ io_queue o → entry_target e = t → entry_isIntersecting e = false) ∧
  (∀ r, r ∈ io_regs o → reg_target r = t → reg_prev_isect r = false).

Definition quiet (t : nat) (p : Page) : Prop := ∀ o, pg_obs p = Some o → quiet_obs t o.

(** A rendering update of [p] with [lay] in which [t]'s box, if it has
    one, does not touch the root bounds. *)
Definition avoids (t : nat) (p : Page) (lay : Layout) : Prop :=
  ∀ o tr, pg_obs p = Some o → bounding_box lay t = Some tr →
          rects_touch tr (root_bounds (viewport lay) (io_margin o)) = false.

(** ** Lemmas: the observer through the script's steps *)

(** The callback at the concrete observer: the registrations of the
    targets of intersecting entries are removed, nothing else changes. *)
Lemma callback_observer es (w : World Observer) :
  w_obs (callback es w).2
  = set_regs (filter (λ r, reg_target r ∉ marked es) (io_regs (w_obs w))) (w_obs w).
Proof.
  rewrite callback_spec. cbn. revert w. induction es as [|e es IH]; intros w; simpl.
  - destruct (w_obs w) as [ths m rs q]. unfold set_regs. cbn. f_equal. symmetry.
    apply list_filter_id. intros r _. apply not_elem_of_nil.
  - rewrite IH. unfold entry_effect, marked. destruct (entry_isIntersecting e) eqn:He; simpl.
    + rewrite filter_cons_True by done. unfold set_regs. cbn. f_equal.
      rewrite list_filter_filter. apply list_filter_iff. intros r. rewrite elem_of_cons. tauto.
    + by rewrite filter_cons_False by congruence.
Qed.

Lemma notify_observer p o :
  pg_obs p = Some o →
  pg_obs (notify p)
  = Some (mkObserver (io_thresholds o) (io_margin o)
                     (filter (λ r, reg_target r ∉ marked (io_queue o)) (io_regs o)) []).
Proof. intros Ho. unfold notify. rewrite Ho. cbn. unfold report. by rewrite callback_observer. Qed.

Lemma observe_all_regs l o r :
  r ∈ io_regs (observe_all l o) → r ∈ io_regs o ∨ reg_prev_isect r = false.
Proof.
  unfold observe_all. revert o. induction l as [|t l IH]; intros o Hr; [by left|].
  cbn in Hr. destruct (IH _ Hr) as [Hr'|]; [|by right].
  unfold observe in Hr'. case_decide; [by left|].
  cbn in Hr'. apply elem_of_app in Hr' as [Hr0|Hr0%list_elem_of_singleton]; [by left|by subst; right].
Qed.

Lemma observer_config_observe_all l o : observer_config o → observer_config (observe_all l o).
Proof. unfold observer_config. by rewrite (proj1 (observe_all_config l o)), (proj2 (observe_all_config l o)). Qed.

Lemma observer_pending_observe_all l o : observer_pending o → observer_pending (observe_all l o).
Proof.
  intros Hp r Hr Hi. rewrite observe_all_queue.
  destruct (observe_all_regs l o r Hr) as [Hr'|]; [by apply Hp|congruence].
Qed.

Lemma targets_in_doc_observe_all d l o :
  targets_in_doc d o → (∀ t, t ∈ l → is_Some (doc_elements d !! t)) →
  targets_in_doc d (observe_all l o).
Proof.
  intros Ho Hl t Ht. change (t ∈ api_targets (observe_all l o)) in Ht.
  rewrite observe_all_targets, elem_of_foldl_add_unique in Ht. destruct Ht; auto.
Qed.

Lemma candidates_in_doc d t : well_formed_doc d → t ∈ candidates d → is_Some (doc_elements d !! t).
Proof.
  intros [_ Hdom]. unfold candidates. rewrite elem_of_app, !elem_of_select_all.
  intros [[Ht _]|[Ht _]]; by apply Hdom.
Qed.

(** An observer the script has just made, at either branch of [start]. *)
Lemma fresh_observer_live d l :
  well_formed_doc d → (∀ t, t ∈ l → t ∈ candidates d) →
  observer_config (observe_all l script_observer) ∧
  observer_pending (observe_all l script_observer) ∧
  targets_in_doc d (observe_all l script_observer).
Proof.
  intros Hwf Hl. split; [by apply observer_config_observe_all|].
  split; [apply observer_pending_observe_all; intros r Hr; by apply not_elem_of_nil in Hr|].
  apply targets_in_doc_observe_all; [intros t Ht; by apply not_elem_of_nil in Ht|].
  intros t Ht. by apply candidates_in_doc, Hl.
Qed.

(** ** Lemmas: each step preserves [live_inv] *)

Lemma live_parse p id e :
  live_inv p → live_inv (mkPage (append_element id e (pg_doc p)) (pg_obs p) (pg_script_ran p)).
Proof.
  intros Hl o Ho. destruct (Hl o Ho) as (Hc & Hp & Ht). do 2 (split; [done|]).
  intros t Htg. cbn. apply lookup_insert_is_Some'. right. by apply Ht.
Qed.

Lemma live_script p : page_inv p → live_inv (script_step p).
Proof.
  intros [Hwf _]. destruct (decide (readyState (pg_doc p) = Loading)) as [Hl|Hl].
  - rewrite script_step_loading by done. intros o [= <-].
    apply (fresh_observer_live (pg_doc p) []); [done|intros t Ht; by apply not_elem_of_nil in Ht].
  - rewrite script_step_parsed by done. intros o [= <-]. by apply fresh_observer_live.
Qed.

Lemma live_finish p :
  page_inv p → live_inv p → readyState (pg_doc p) = Loading → live_inv (finish_parsing p).
Proof.
  intros [Hwf Hobs] Hlive Hl. destruct (pg_obs p) as [o|] eqn:Ho.
  - destruct Hobs as (_ & _ & Hlo). rewrite decide_True in Hlo by done.
    destruct Hlo as (Hls & _).
    rewrite (finish_parsing_listening p o) by done. intros o' [= <-].
    destruct (Hlive o Ho) as (Hc & Hp & Ht).
    split; [by apply observer_config_observe_all|].
    split; [by apply observer_pending_observe_all|].
    apply targets_in_doc_observe_all; [done|]. intros t Htc. by apply candidates_in_doc.
  - unfold finish_parsing. rewrite Ho. by intros o'.
Qed.

Lemma live_render p lay : live_inv p → live_inv (render lay p).
Proof.
  intros Hlive o'. unfold render. cbn [pg_obs pg_doc].
  destruct (pg_obs p) as [o|] eqn:Ho; [|done]. intros [= <-].
  destruct (Hlive o Ho) as (Hc & Hp & Ht). split; [done|]. split.
  - intros r' Hr' Hi.
    destruct (update_observations_regs lay o r' Hr') as (r & Hr & -> & _ & Hold & Hnew).
    destruct (reg_prev_isect r) eqn:Hpr; [apply Hold; auto|auto].
  - intros t. rewrite update_observations_targets. apply Ht.
Qed.

Lemma live_notify p o : pg_obs p = Some o → live_inv p → live_inv (notify p).
Proof.
  intros Ho Hlive. destruct (Hlive o Ho) as (Hc & Hp & Ht).
  destruct (notify_spec p o Ho) as (d' & o' & Hn & Hm & _ & _ & _ & Htg & _).
  pose proof (notify_observer p o Ho) as Hobs. rewrite Hn in Hobs |- *. cbn in Hobs.
  intros o'' [= <-]. injection Hobs as ->. split; [done|]. split.
  - intros r Hr Hi. cbn in Hr. apply list_elem_of_filter in Hr as [Hnot Hr].
    destruct (Hp r Hr Hi) as [q Hq]. exfalso. apply Hnot.
    unfold marked. apply list_elem_of_fmap. eexists. split; [|apply list_elem_of_filter; split; [|apply Hq]]; done.
  - intros t Htt. cbn [pg_doc]. apply (marked_doc_is_Some _ _ _ _ Hm), Ht.
    unfold io_targets in Htt. cbn in Htt. apply list_elem_of_fmap in Htt as (r & -> & Hr).
    apply list_elem_of_filter in Hr as [_ Hr]. by apply list_elem_of_fmap_2.
Qed.

Lemma live_step {ok} p p' : page_inv p → live_inv p → step_in ok p p' → live_inv p'.
Proof.
  intros Hinv Hlive Hs. destruct Hs as [p id e|p|p Hl|p|p lay|p o Ho].
  - by apply live_parse.
  - by apply live_script.
  - by apply live_finish.
  - intros o Ho. destruct (Hlive o Ho) as (Hc & Hp & Ht). by split; [|split].
  - by apply live_render.
  - by eapply live_notify.
Qed.

Lemma live_initial p : initial_page p → live_inv p.
Proof. intros (_ & _ & _ & Ho & _). intros o. by rewrite Ho. Qed.

Lemma live_steps {ok} p p' : page_inv p → live_inv p → rtc (step_in ok) p p' → live_inv p'.
Proof.
  intros Hinv Hlive Hsteps. revert Hinv Hlive.
  induction Hsteps as [p|p p1 p' Hs _ IH]; intros Hinv Hlive; [done|].
  apply IH; [by eapply inv_step|by eapply live_step].
Qed.

Lemma reachable_live p : reachable p → live_inv p.
Proof.
  intros (p0 & Hinit & Hsteps).
  eapply live_steps; [by apply inv_initial|by apply live_initial|exact Hsteps].
Qed.

(** ** Lemmas: a target whose box never touches the root bounds *)

Lemma quiet_obs_observe_all t l o : quiet_obs t o → quiet_obs t (observe_all l o).
Proof.
  intros [Hq Hr]. split; [rewrite observe_all_queue; exact Hq|].
  intros r Hreg Ht. destruct (observe_all_regs l o r Hreg); auto.
Qed.

Lemma quiet_obs_script t : quiet_obs t script_observer.
Proof. split; intros ? H; by apply not_elem_of_nil in H. Qed.

(** A rendering update that keeps [t]'s box away from the root bounds
    records and queues only [isIntersecting = false] for [t]. *)
Lemma quiet_obs_update t lay o :
  (∀ tr, bounding_box lay t = Some tr →
         rects_touch tr (root_bounds (viewport lay) (io_margin o)) = false) →
  quiet_obs t o → quiet_obs t (update_observations lay o).
Proof.
  intros Hav [Hq Hr]. pose proof (compute_observation_isect_false o lay t Hav) as Hf. split.
  - intros e He Ht. apply elem_of_update_observations_queue in He as [He|(r & _ & He)]; [by apply Hq|].
    destruct (update_registration_entry _ _ _ _ He) as [Het ->]. by rewrite <-Het, Ht.
  - intros r' Hr' Ht. destruct (update_observations_regs lay o r' Hr') as (r & _ & Htr & -> & _).
    by rewrite <-Htr, Ht.
Qed.

(** The notification removes [t] from nothing and leaves an empty queue. *)
Lemma quiet_obs_notify t o :
  quiet_obs t o →
  quiet_obs t (mkObserver (io_thresholds o) (io_margin o)
                          (filter (λ r, reg_target r ∉ marked (io_queue o)) (io_regs o)) []).
Proof.
  intros [_ Hr]. split; [intros e He; by apply not_elem_of_nil in He|].
  intros r Hreg. apply list_elem_of_filter in Hreg as [_ Hreg]. by apply Hr.
Qed.

Lemma quiet_not_marked t o : quiet_obs t o → t ∉ marked (io_queue o).
Proof.
  intros [Hq _]. unfold marked. intros (e & Ht & He)%list_elem_of_fmap.
  apply list_elem_of_filter in He as [Hi He]. rewrite (Hq e He (eq_sym Ht)) in Hi. discriminate.
Qed.

Lemma quiet_step t p p' : page_inv p → quiet t p → step_in (avoids t) p p' → quiet t p'.
Proof.
  intros [Hwf Hobs] Hquiet Hs. destruct Hs as [p id e|p Hran|p Hl|p|p lay Hav|p o Ho].
  - exact Hquiet.
  - destruct (decide (readyState (pg_doc p) = Loading)).
    + rewrite script_step_loading by done. intros o [= <-]. apply quiet_obs_script.
    + rewrite script_step_parsed by done. intros o [= <-].
      apply quiet_obs_observe_all, quiet_obs_script.
  - destruct (pg_obs p) as [o|] eqn:Ho.
    + destruct Hobs as (_ & _ & Hlo). rewrite decide_True in Hlo by done.
      rewrite (finish_parsing_listening p o) by (done || apply Hlo). intros o' [= <-].
      by apply quiet_obs_observe_all, Hquiet.
    + unfold finish_parsing. rewrite Ho. by intros o'.
  - exact Hquiet.
  - intros o'. unfold render. cbn [pg_obs]. destruct (pg_obs p) as [o|] eqn:Ho; [|done].
    intros [= <-]. apply quiet_obs_update; [intros tr; by apply Hav|by apply Hquiet].
  - intros o'. rewrite (notify_observer p o Ho). intros [= <-]. by apply quiet_obs_notify, Hquiet.
Qed.

Lemma script_step_elements p : doc_elements (pg_doc (script_step p)) = doc_elements (pg_doc p).
Proof.
  destruct (decide (readyState (pg_doc p) = Loading)).
  - by rewrite script_step_loading.
  - by rewrite script_step_parsed.
Qed.

(** One step of the environment that keeps [t] away from the root bounds
    changes neither the element [t] nor its registration. *)
Lemma frozen_quiet_step t p p' :
  page_inv p → quiet t p → is_Some (doc_elements (pg_doc p) !! t) → step_in (avoids t) p p' →
  doc_elements (pg_doc p') !! t = doc_elements (pg_doc p) !! t ∧
  ∀ o, pg_obs p = Some o → t ∈ io_targets o → ∃ o', pg_obs p' = Some o' ∧ t ∈ io_targets o'.
Proof.
  intros [Hwf Hobs] Hquiet Ht Hs. destruct Hs as [p id e Hl Hid|p Hran|p Hl|p|p lay Hav|p o Ho].
  - split; [|intros o Ho Hto; by exists o]. cbn. apply lookup_insert_ne. intros ->. rewrite Hid in Ht.
    by destruct Ht.
  - split; [by rewrite script_step_elements|]. intros o Ho. rewrite Ho in Hobs.
    destruct Hobs as [Hr _]. congruence.
  - destruct (pg_obs p) as [o|] eqn:Ho.
    + destruct Hobs as (_ & _ & Hlo). rewrite decide_True in Hlo by done.
      rewrite (finish_parsing_listening p o) by (done || apply Hlo). split; [done|].
      intros o' [= <-] Hto. eexists. split; [done|].
      change (t ∈ api_targets (observe_all (candidates (set_ready_state Interactive (pg_doc p))) o)).
      rewrite observe_all_targets, elem_of_foldl_add_unique. by left.
    + unfold finish_parsing. rewrite Ho. split; [done|]. by intros o'.
  - split; [done|]. intros o Ho Hto. by exists o.
  - split; [done|]. intros o Ho Hto. exists (update_observations lay o).
    unfold render. rewrite Ho. split; [done|]. by rewrite update_observations_targets.
  - pose proof (quiet_not_marked t o (Hquiet o Ho)) as Hk.
    destruct (notify_spec p o Ho) as (d' & o' & Hn & Hm & _ & _ & _ & Htg & _). rewrite Hn.
    split; [by eapply marked_doc_unmarked|]. intros o0 Ho0 Hto. rewrite Ho in Ho0. injection Ho0 as <-.
    exists o'. split; [done|]. rewrite Htg, list_elem_of_filter. done.
Qed.

Lemma quiet_steps t p p' :
  page_inv p → quiet t p → rtc (step_in (avoids t)) p p' → page_inv p' ∧ quiet t p'.
Proof.
  intros Hinv Hq Hsteps. revert Hinv Hq.
  induction Hsteps as [p|p p1 p' Hs _ IH]; intros Hinv Hq; [done|].
  apply IH; [by eapply inv_step|by eapply quiet_step].
Qed.

(** A ratio of at least 0.15 means the box touches the root bounds. *)
Lemma ratio_touch tr rb : (15 # 100 <= intersection_ratio tr rb)%Q → rects_touch tr rb = true.
Proof.
  intros H. destruct (rects_touch tr rb) eqn:Ht; [done|].
  rewrite (intersection_ratio_not_touching _ _ Ht) in H. unfold Qle in H. simpl in H. lia.
Qed.

(** ** Theorems *)

(** At a rendering update in which an observed element's box touches the
    margin-reduced viewport, an intersecting entry for it is queued: a new
    one if the last update did not find it intersecting, the pending one
    of [live_inv] otherwise. The notification that follows marks and
    unobserves it. *)
Lemma touching_render_notify p o lay t tr :
  reachable p → pg_obs p = Some o → t ∈ io_targets o → bounding_box lay t = Some tr →
  rects_touch tr (root_bounds (viewport lay) script_margin) = true →
  has_visible (pg_doc (notify (render lay p))) t ∧
  ∃ o', pg_obs (notify (render lay p)) = Some o' ∧ t ∉ io_targets o'.
Proof.
  intros Hr Ho Ht Hb Htouch.
  destruct (reachable_live p Hr o Ho) as ([Hm _] & Hp & Hdoc).
  pose proof Ht as Hdt. apply Hdoc in Hdt.
  unfold io_targets in Ht. apply list_elem_of_fmap in Ht as (r & -> & Hreg).
  assert ((compute_observation o lay (reg_target r)).1.2 = true) as Hi
    by (by rewrite (compute_observation_touch _ _ _ _ Hb), Hm).
  assert (∃ q, mkEntry (reg_target r) true q ∈ io_queue (update_observations lay o)) as [q Hq].
  { destruct (reg_prev_isect r) eqn:Hpr.
    - destruct (Hp r Hreg Hpr) as [q Hq]. exists q.
      unfold update_observations. cbn [io_queue]. apply elem_of_app. by left.
    - destruct (update_observations_queues lay o r Hreg) as [q Hq]; [by rewrite Hi, Hpr|].
      rewrite Hi in Hq. by exists q. }
  apply (notify_marks_queued _ (update_observations lay o) _ q); [|done|done].
  unfold render. by rewrite Ho.
Qed.


(** C6: The threshold does not gate the class (the manifest's first
    finding). In every reachable page, an observed element whose box
    merely touches the margin-reduced viewport at a rendering update,
    whatever its intersection ratio (below 0.15, or zero for an edge
    contact), gets [is-visible] at the notification that follows and is
    unobserved: the callback tests [isIntersecting], not the ratio. So
    the negative half of the spec's property 3 ("an element that never
    reaches the visibility threshold never receives the marker class")
    does not hold of the code. *)
Theorem touching_marked_any_ratio p o lay t tr :
  reachable p → pg_obs p = Some o → t ∈ io_targets o → bounding_box lay t = Some tr →
  rects_touch tr (root_bounds (viewport lay) script_margin) = true →
  let p' := notify (render lay p) in
  has_visible (pg_doc p') t ∧ ∃ o', pg_obs p' = Some o' ∧ t ∉ io_targets o'.
Proof. intros Hr Ho Ht Hb Htouch. by eapply touching_render_notify. Qed.

(** C9: Spec property 2, "the marker class is added exactly once". When a
    notification delivers an intersecting entry for an element, the
    element gets [is-visible] and is unobserved, and in every run that
    follows, whatever it is (the element leaving and re-entering the
    viewport included), it keeps [is-visible], is never changed again and
    is never observed again. *)
Theorem marked_element_frozen p o t q p' :
  reachable p → pg_obs p = Some o → mkEntry t true q ∈ io_queue o → rtc step (notify p) p' →
  has_visible (pg_doc p') t ∧
  doc_elements (pg_doc p') !! t = doc_elements (pg_doc (notify p)) !! t ∧
  ∃ o', pg_obs p' = Some o' ∧ t ∉ io_targets o'.
Proof.
  intros Hr Ho Hq Hsteps.
  pose proof (reachable_inv p Hr) as [_ Hobs]. rewrite Ho in Hobs.
  destruct Hobs as (_ & [_ Hqt] & Hlo).
  assert (readyState (pg_doc p) ≠ Loading) as Hl.
  { intros Hl. rewrite decide_True in Hlo by done. destruct Hlo as (_ & _ & _ & Hq0).
    rewrite Hq0 in Hq. by apply not_elem_of_nil in Hq. }
  assert (is_Some (doc_elements (pg_doc p) !! t)) as Ht.
  { destruct (reachable_live p Hr o Ho) as (_ & _ & Hdoc). apply Hdoc, (Hqt _ Hq). }
  destruct (notify_marks_queued p o t q Ho Hq Ht) as [Hv (o1 & Ho1 & Ht1)].
  assert (reachable (notify p)) as Hrn.
  { destruct Hr as (p0 & Hinit & H0). exists p0. split; [done|].
    eapply rtc_r; [exact H0|]. eapply step_notify; [exact Ho|]. intros Hnil.
    rewrite Hnil in Hq. by apply not_elem_of_nil in Hq. }
  assert (readyState (pg_doc (notify p)) ≠ Loading) as Hln.
  { destruct (notify_spec p o Ho) as (d' & o' & -> & _ & Hrs & _). cbn. by rewrite Hrs. }
  destruct (unobserved_element_frozen (notify p) p' o1 t Hrn Ho1 Hln Ht1 Hsteps) as [He Hrest].
  split; [|done]. destruct Hv as (e & He' & Hve). exists e. by rewrite He.
Qed.

(** C5: Property 3 of the spec, its positive half. In a run from a fresh page
    in which no rendering update lets element [t]'s box touch the root
    bounds (the viewport with its bottom edge 40 pixels higher), the
    script never changes [t]: from any point of the run at which [t] is
    in the document, its element (attributes, class [is-visible]
    included) stays as it is, and once observed it stays observed. *)
Theorem never_touching_never_marked p0 p1 p2 t :
  initial_page p0 → rtc (step_in (avoids t)) p0 p1 → rtc (step_in (avoids t)) p1 p2 →
  is_Some (doc_elements (pg_doc p1) !! t) →
  doc_elements (pg_doc p2) !! t = doc_elements (pg_doc p1) !! t ∧
  ∀ o1, pg_obs p1 = Some o1 → t ∈ io_targets o1 →
        ∃ o2, pg_obs p2 = Some o2 ∧ t ∈ io_targets o2.
Proof.
  intros Hinit H01 H12 Ht.
  destruct (quiet_steps t p0 p1) as [Hinv Hq]; [by apply inv_initial| |done|].
  { intros o. destruct Hinit as (_ & _ & _ & -> & _). done. }
  clear H01 Hinit. revert Hinv Hq Ht.
  induction H12 as [p|p p' p2 Hs _ IH]; intros Hinv Hq Ht; [split; [done|by eauto]|].
  destruct (frozen_quiet_step t p p' Hinv Hq Ht Hs) as [He Hreg].
  destruct (IH ltac:(by eapply inv_step) ltac:(by eapply quiet_step) ltac:(by rewrite He))
    as [He' Hreg'].
  split; [congruence|]. intros o1 Ho1 Hto1.
  destruct (Hreg o1 Ho1 Hto1) as (o' & Ho' & Hto'). by apply (Hreg' o').
Qed.

(** C11: The script run on a parsed document, then the first frame: what
    happens to a candidate [t]. *)
Theorem first_frame_after_script p lay t tr :
  reachable p → pg_script_ran p = false → readyState (pg_doc p) ≠ Loading →
  is_candidate (pg_doc p) t → bounding_box lay t = Some tr →
  let p' := notify (render lay (script_step p)) in
  (rects_touch tr (root_bounds (viewport lay) script_margin) = true →
   has_visible (pg_doc p') t ∧ ∃ o', pg_obs p' = Some o' ∧ t ∉ io_targets o') ∧
  (rects_touch tr (root_bounds (viewport lay) script_margin) = false →
   doc_elements (pg_doc p') !! t = doc_elements (pg_doc p) !! t ∧
   ∃ o', pg_obs p' = Some o' ∧ t ∈ io_targets o').
Proof.
  intros Hr Hran Hl Hc Hb. cbn zeta. pose proof (reachable_inv p Hr) as [Hwf _].
  rewrite script_step_parsed by done.
  set (o := observe_all (candidates (pg_doc p)) script_observer).
  assert (t ∈ io_targets o) as Ht by (apply init_covers, Hc).
  assert (io_margin o = script_margin) as Hm by apply (observe_all_config _ script_observer).
  assert (pg_obs (render lay (mkPage (init_doc (pg_doc p)) (Some o) true))
          = Some (update_observations lay o)) as Ho by done.
  split; intros Htouch.
  - unfold io_targets in Ht. apply list_elem_of_fmap in Ht as (r & -> & Hreg).
    destruct (observe_all_regs _ _ r Hreg) as [Hin|Hpr]; [by apply not_elem_of_nil in Hin|].
    destruct (update_observations_queues lay o r Hreg) as [q Hq].
    { rewrite (compute_observation_touch _ _ _ _ Hb), Hm, Htouch, Hpr. discriminate. }
    rewrite (compute_observation_touch _ _ _ _ Hb), Hm, Htouch in Hq.
    apply (notify_marks_queued _ _ _ q Ho Hq). by apply Hwf, Hc.
  - assert (quiet_obs t (update_observations lay o)) as Hq.
    { apply quiet_obs_update; [intros tr' Hb'; rewrite Hm; congruence|].
      apply quiet_obs_observe_all, quiet_obs_script. }
    destruct (notify_spec _ _ Ho) as (d' & o' & Hn & Hmd & _ & _ & _ & Htg & _). rewrite Hn.
    pose proof (quiet_not_marked t _ Hq) as Hk.
    split; [cbn [pg_doc]; by rewrite (marked_doc_unmarked _ _ _ _ Hmd Hk)|].
    exists o'. split; [done|]. rewrite Htg, list_elem_of_filter, update_observations_targets. done.
Qed.

(** ** Witnesses *)

Lemma scn_avoid_reach_p3 : rtc (step_in (avoids 1)) scn_p0 scn_p3.
Proof.
  eapply rtc_l; [by apply step_script|].
  eapply rtc_l; [by apply step_finish_parsing|].
  eapply rtc_l; [apply (step_render _ lay_offscreen)|].
  - intros o tr Ho Hb. vm_compute in Ho, Hb. injection Ho as <-. injection Hb as <-.
    vm_compute. reflexivity.
  - apply rtc_once. apply can_notify_step. vm_compute. reflexivity.
Qed.


Lemma never_touching_never_marked_witness :
  doc_elements (pg_doc scn_p3) !! 1 = doc_elements (pg_doc scn_p0) !! 1 ∧
  ∀ o1, pg_obs scn_p0 = Some o1 → 1 ∈ io_targets o1 →
        ∃ o2, pg_obs scn_p3 = Some o2 ∧ 1 ∈ io_targets o2.
Proof.
  apply (never_touching_never_marked scn_p0 scn_p0 scn_p3 1).
  - exact scn_initial.
  - apply rtc_refl.
  - exact scn_avoid_reach_p3.
  - vm_compute. by eexists.
Defined.

Lemma first_frame_after_script_witness :
  let p' := notify (render lay_second (script_step (finish_parsing scn_p0))) in
  (rects_touch (mkRect 0 740 100 100) (root_bounds (viewport lay_second) script_margin) = true →
   has_visible (pg_doc p') 2 ∧ ∃ o', pg_obs p' = Some o' ∧ 2 ∉ io_targets o') ∧
  (rects_touch (mkRect 0 740 100 100) (root_bounds (viewport lay_second) script_margin) = false →
   doc_elements (pg_doc p') !! 2 = doc_elements (pg_doc (finish_parsing scn_p0)) !! 2 ∧
   ∃ o', pg_obs p' = Some o' ∧ 2 ∈ io_targets o').
Proof.
  apply (first_frame_after_script (finish_parsing scn_p0) lay_second 2 (mkRect 0 740 100 100)).
  - exists scn_p0. split; [exact scn_initial|]. by apply rtc_once, step_finish_parsing.
  - reflexivity.
  - vm_compute. discriminate.
  - apply is_candidate_b_spec. vm_compute. reflexivity.
  - vm_compute. reflexivity.
Defined.

Lemma touching_marked_any_ratio_witness :
  (intersection_ratio (mkRect 0 750 100 100) (root_bounds (viewport lay_sliver) script_margin)
   == 1 # 10)%Q ∧
  let p' := notify (render lay_sliver scn_p3) in
  has_visible (pg_doc p') 2 ∧ ∃ o', pg_obs p' = Some o' ∧ 2 ∉ io_targets o'.
Proof.
  split; [vm_compute; reflexivity|].
  apply (touching_marked_any_ratio scn_p3 (obs_of scn_p3) lay_sliver 2 (mkRect 0 750 100 100)).
  - exact scn_reachable_p3.
  - vm_compute. reflexivity.
  - apply list_elem_of_In. vm_compute. auto.
  - vm_compute. reflexivity.
  - vm_compute. reflexivity.
Defined.

Lemma marked_element_frozen_witness :
  has_visible (pg_doc (render lay_second scn_p4)) 2 ∧
  doc_elements (pg_doc (render lay_second scn_p4)) !! 2 = doc_elements (pg_doc scn_p4) !! 2 ∧
  ∃ o', pg_obs (render lay_second scn_p4) = Some o' ∧ 2 ∉ io_targets o'.
Proof.
  apply (marked_element_frozen (render lay_second scn_p3) (update_observations lay_second (obs_of scn_p3)) 2
           (intersection_ratio (mkRect 0 740 100 100) (root_bounds scn_viewport script_margin))).
  - destruct scn_reachable_p3 as (p0 & Hinit & Hsteps). exists p0. split; [done|].
    eapply rtc_r; [exact Hsteps|]. by apply step_render.
  - vm_compute. reflexivity.
  - vm_compute. apply list_elem_of_In. simpl. auto.
  - by apply rtc_once, step_render.
Defined.
