(* ===== verification/Watcher.v ===== *)
(** * The Visibility Watcher of the spec, and the page as its refinement

    spec.md describes one component, a Visibility Watcher: a registry of
    observed elements and a one-time mutation applied to elements that
    become visible. [AState] is its state as sets: the elements of the
    document, the registry, and the elements that carry the marker class.
    [a_step] is what the spec allows: the parser adds a fresh element
    (with or without the class in its markup); initialization registers
    elements of the document; a delivery marks registered elements and
    deregisters them in the same step; nothing else changes the state.
    [abs] reads a page as an [AState] ([io_targets] as the registry, the
    elements with class [is-visible] as the marked set), and
    [page_refines_watcher] shows that every step of a reachable page is
    exactly one step of the watcher (a lock-step simulation). *)

From stdpp Require Import base list gmap sets strings relations.
From S2P Require Import Prelude Dom IntersectionObserver Animations Page Visibility.

(** ** The abstract watcher *)

Record AState := mkA {
  a_elements : gset nat;
  a_registry : gset nat;
  a_marked : gset nat
}.

Inductive a_step : AState → AState → Prop :=
  | a_parse s id (v : bool) :
      id ∉ a_elements s →
      a_step s (mkA ({[id]} ∪ a_elements s) (a_registry s)
                    (if v then {[id]} ∪ a_marked s else a_marked s))
  | a_register s C :
      C ⊆ a_elements s →
      a_step s (mkA (a_elements s) (a_registry s ∪ C) (a_marked s))
  | a_deliver s V :
      V ⊆ a_registry s →
      a_step s (mkA (a_elements s) (a_registry s ∖ V) (a_marked s ∪ (V ∩ a_elements s)))
  | a_stutter s : a_step s s.

(** ** Reading a page as a watcher state *)

Definition visible_set (d : Document) : gset nat :=
  dom (filter (λ ke : nat * Element, IS_VISIBLE ∈ class_tokens ke.2) (doc_elements d)).

Definition registry_of (ob : option Observer) : gset nat :=
  match ob with
  | Some o => list_to_set (io_targets o)
  | None => ∅
  end.

Definition abs (p : Page) : AState :=
  mkA (dom (doc_elements (pg_doc p))) (registry_of (pg_obs p)) (visible_set (pg_doc p)).

(** ** Lemmas *)

Lemma elem_of_visible_set d k : k ∈ visible_set d ↔ has_visible d k.
Proof.
  unfold visible_set, has_visible. rewrite elem_of_dom. split.
  - intros [e He]. apply map_lookup_filter_Some in He. by exists e.
  - intros (e & He & Hv). exists e. by apply map_lookup_filter_Some.
Qed.

Lemma visible_set_ext d d' : doc_elements d = doc_elements d' → visible_set d = visible_set d'.
Proof. unfold visible_set. by intros ->. Qed.

Lemma registry_observe_all l o :
  registry_of (Some (observe_all l o)) = registry_of (Some o) ∪ list_to_set l.
Proof.
  apply set_eq. intros t. cbn. rewrite elem_of_union, !elem_of_list_to_set.
  change (t ∈ api_targets (observe_all l o) ↔ t ∈ api_targets o ∨ t ∈ l).
  by rewrite observe_all_targets, elem_of_foldl_add_unique.
Qed.

Lemma has_visible_is_Some d k : has_visible d k → is_Some (doc_elements d !! k).
Proof. intros (e & He & _). by exists e. Qed.

(** What the notification does to the marked set: the delivered targets
    that are elements join it. *)
Lemma marked_doc_visible ks d d' k :
  marked_doc ks d d' →
  has_visible d' k ↔ has_visible d k ∨ (k ∈ ks ∧ is_Some (doc_elements d !! k)).
Proof.
  intros Hm. pose proof Hm as [_ Hk]. split.
  - intros Hv. destruct (decide (k ∈ ks)) as [Hin|Hin].
    + right. split; [done|]. by apply (marked_doc_is_Some ks d d'), (has_visible_is_Some d').
    + left. unfold has_visible in *. by rewrite <-(marked_doc_unmarked ks d d' k Hm Hin).
  - intros [Hv|[Hin Hs]]; [by eapply marked_doc_has_visible|by eapply marked_doc_marks].
Qed.

Lemma abs_parse p id e :
  doc_elements (pg_doc p) !! id = None →
  abs (mkPage (append_element id e (pg_doc p)) (pg_obs p) (pg_script_ran p))
  = mkA ({[id]} ∪ a_elements (abs p)) (a_registry (abs p))
        (if bool_decide (IS_VISIBLE ∈ class_tokens e) then {[id]} ∪ a_marked (abs p)
         else a_marked (abs p)).
Proof.
  intros Hid. unfold abs. cbn. f_equal; [apply dom_insert_L|].
  apply set_eq. intros k. rewrite elem_of_visible_set. unfold has_visible. cbn.
  destruct (decide (k = id)) as [->|Hne].
  - rewrite lookup_insert_eq. case_bool_decide as Hv.
    + rewrite elem_of_union, elem_of_singleton. naive_solver.
    + rewrite elem_of_visible_set. unfold has_visible. rewrite Hid. naive_solver.
  - rewrite lookup_insert_ne by done. case_bool_decide;
      rewrite ?elem_of_union, ?elem_of_singleton, elem_of_visible_set; unfold has_visible; naive_solver.
Qed.

Lemma abs_ext p p' :
  doc_elements (pg_doc p') = doc_elements (pg_doc p) → registry_of (pg_obs p') = registry_of (pg_obs p) →
  abs p' = abs p.
Proof. intros He Hr. unfold abs. rewrite He, Hr. f_equal. by apply visible_set_ext. Qed.

(** A step that changes neither the elements nor the registry is a
    stutter of the watcher. *)
Lemma a_step_same p p' :
  doc_elements (pg_doc p') = doc_elements (pg_doc p) → registry_of (pg_obs p') = registry_of (pg_obs p) →
  a_step (abs p) (abs p').
Proof. intros He Hr. rewrite (abs_ext p p' He Hr). apply a_stutter. Qed.

(** [init] run on [d] with the observer [o], seen from the watcher: the
    candidates of [d] are registered. *)
Lemma abs_init d d' ran o :
  doc_elements d' = doc_elements d → doc_order d' = doc_order d → well_formed_doc d →
  abs (mkPage (init_doc d') (Some (observe_all (candidates d') o)) ran)
  = mkA (dom (doc_elements d)) (registry_of (Some o) ∪ list_to_set (candidates d')) (visible_set d) ∧
  list_to_set (candidates d') ⊆@{gset nat} dom (doc_elements d).
Proof.
  intros He Ho Hwf. split.
  - unfold abs. cbn [pg_doc pg_obs]. rewrite registry_observe_all.
    rewrite (visible_set_ext (init_doc d') d) by done. f_equal. by rewrite <-He.
  - intros t Ht%elem_of_list_to_set. rewrite elem_of_dom, <-He.
    apply candidates_in_doc; [|done]. by apply (well_formed_doc_same d).
Qed.

Lemma sim_script p : page_inv p → pg_script_ran p = false → a_step (abs p) (abs (script_step p)).
Proof.
  intros [Hwf Hobs] Hran. destruct (pg_obs p) as [o|] eqn:Ho; [destruct Hobs; congruence|].
  destruct (decide (readyState (pg_doc p) = Loading)).
  - rewrite script_step_loading by done. apply a_step_same; [done|by rewrite Ho].
  - rewrite script_step_parsed by done.
    destruct (abs_init (pg_doc p) (pg_doc p) true script_observer) as [-> HC]; [done..|].
    replace (registry_of (Some script_observer)) with (a_registry (abs p)) by (unfold abs; by rewrite Ho).
    by apply a_register.
Qed.

Lemma sim_finish p :
  page_inv p → readyState (pg_doc p) = Loading → a_step (abs p) (abs (finish_parsing p)).
Proof.
  intros [Hwf Hobs] Hl. destruct (pg_obs p) as [o|] eqn:Ho.
  - destruct Hobs as (_ & _ & Hlo). rewrite decide_True in Hlo by done.
    rewrite (finish_parsing_listening p o) by (done || apply Hlo).
    destruct (abs_init (pg_doc p) (set_ready_state Interactive (pg_doc p)) (pg_script_ran p) o)
      as [-> HC]; [done..|].
    replace (registry_of (Some o)) with (a_registry (abs p)) by (unfold abs; by rewrite Ho).
    by apply a_register.
  - unfold finish_parsing. rewrite Ho. apply a_step_same; [done|by rewrite Ho].
Qed.

Lemma sim_notify p o : page_inv p → pg_obs p = Some o → a_step (abs p) (abs (notify p)).
Proof.
  intros [Hwf Hobs] Ho. rewrite Ho in Hobs. destruct Hobs as (_ & [_ Hqt] & _).
  set (V := list_to_set (marked (io_queue o)) : gset nat).
  destruct (notify_spec p o Ho) as (d' & o' & Hn & Hm & _ & _ & _ & Htg & _).
  assert (abs (notify p)
          = mkA (a_elements (abs p)) (a_registry (abs p) ∖ V) (a_marked (abs p) ∪ (V ∩ a_elements (abs p))))
    as ->.
  { rewrite Hn. unfold abs. rewrite Ho. cbn [pg_doc pg_obs registry_of a_elements a_registry a_marked].
    unfold V. f_equal; apply set_eq; intros k.
    - rewrite !elem_of_dom. by apply (marked_doc_is_Some _ _ _ _ Hm).
    - rewrite elem_of_difference, !elem_of_list_to_set, Htg, list_elem_of_filter. tauto.
    - rewrite elem_of_union, elem_of_intersection, !elem_of_visible_set, elem_of_list_to_set, elem_of_dom.
      by apply (marked_doc_visible _ _ _ _ Hm). }
  apply a_deliver. intros t Ht. unfold abs. rewrite Ho. cbn. rewrite elem_of_list_to_set.
  apply elem_of_list_to_set in Ht. unfold marked in Ht.
  apply list_elem_of_fmap in Ht as (e & -> & He). apply list_elem_of_filter in He as [_ He].
  by apply Hqt.
Qed.

Lemma sim_step {ok} p p' : page_inv p → step_in ok p p' → a_step (abs p) (abs p').
Proof.
  intros Hinv Hs. destruct Hs as [p id e Hl Hid|p Hran|p Hl|p|p lay _|p o Ho].
  - rewrite abs_parse by done. by apply a_parse, not_elem_of_dom.
  - by apply sim_script.
  - by apply sim_finish.
  - by apply a_step_same.
  - apply a_step_same; [done|]. unfold render. cbn.
    destruct (pg_obs p) as [o|]; [|done]. cbn [fmap option_fmap option_map registry_of].
    by rewrite update_observations_targets.
  - by eapply sim_notify.
Qed.

(** ** Theorems *)

(** C7: The page refines the spec's Visibility Watcher in lock step. Read
    through [abs], every step of a reachable page, whatever it is
    (parsing, the script, the end of parsing, the load, a rendering
    update, a notification), is exactly one step of the watcher. In
    particular a notification is a single delivery: the set [V] of targets
    it marks is a subset of the registry, and in that same step every
    element of [V] leaves the registry and every element of [V] in the
    document joins the marked set. A step that marked without
    deregistering, or marked an unregistered element, is not a watcher
    step. *)
Theorem page_refines_watcher p p' :
  reachable p → step p p' → a_step (abs p) (abs p').
Proof. intros Hr Hs. eapply sim_step; [apply reachable_inv, Hr|exact Hs]. Qed.

(** ** Witnesses *)

(** The notification of the scenario that marks section 2. *)
Lemma page_refines_watcher_witness :
  a_step (abs (render lay_second scn_p3)) (abs scn_p4).
Proof.
  apply page_refines_watcher.
  - destruct scn_reachable_p3 as (p0 & Hinit & Hsteps). exists p0. split; [done|].
    eapply rtc_r; [exact Hsteps|]. by apply step_render.
  - apply can_notify_step. vm_compute. reflexivity.
Defined.
